(** * ChatBot: the watch / detect / respond core of [internal.Service]

    A shallow embedding of the Go service that polls a chat page, finds the
    messages addressed to the bot, asks a completion endpoint for a reply and
    types the reply back into the chat.

    Conventions of the embedding.
    - A Go [string] is the sequence of its runes (Unicode code points), the
      view that [strings.TrimSpace], [strings.Fields] and
      [strings.EqualFold] take of a valid UTF-8 string.
    - A Go [(T, error)] result is a [result T].
    - The page and the completion endpoint are outside the program: what they
      answer to each call is given to the functions as data (records of
      answers), and what the program does to them is recorded as a list of
      [Event]s.
    - [Service] carries the mutable fields of the Go struct; methods thread
      it through the monad [M]. *)

From Stdlib Require Import NArith ZArith Ascii String List Lia Bool.
From stdpp Require Import base option list gmap.

Set Warnings "-register-all".
#[local] Open Scope N_scope.

(** ** Runes and strings *)

Definition rune := N.
Definition gostring := list rune.

Module utf8.

Definition RuneSelf : rune := 128.
Definition RuneError : rune := 65533.

Definition cont (b : N) : N := N.land b 63.

(** Decoding of the bytes of a source literal into runes. *)
Fixpoint DecodeString (bs : list N) : gostring :=
  match bs with
  | [] => []
  | b0 :: r0 =>
      if b0 <? 128 then b0 :: DecodeString r0
      else if b0 <? 224 then
        match r0 with
        | b1 :: r1 =>
            N.lor (N.shiftl (N.land b0 31) 6) (cont b1) :: DecodeString r1
        | _ => [RuneError]
        end
      else if b0 <? 240 then
        match r0 with
        | b1 :: b2 :: r2 =>
            N.lor (N.shiftl (N.land b0 15) 12)
              (N.lor (N.shiftl (cont b1) 6) (cont b2)) :: DecodeString r2
        | _ => [RuneError]
        end
      else
        match r0 with
        | b1 :: b2 :: b3 :: r3 =>
            N.lor (N.shiftl (N.land b0 7) 18)
              (N.lor (N.shiftl (cont b1) 12)
                 (N.lor (N.shiftl (cont b2) 6) (cont b3))) :: DecodeString r3
        | _ => [RuneError]
        end
  end.

End utf8.

(** A string literal of the source, as runes. *)
Definition str (s : string) : gostring :=
  utf8.DecodeString (map N_of_ascii (list_ascii_of_string s)).

Module unicode.

Definition MaxLatin1 : rune := 255.

(** [unicode.IsSpace]: the Latin-1 spaces, then the [White_Space] ranges
    above Latin-1. *)
Definition IsSpace (r : rune) : bool :=
  if r <=? MaxLatin1 then
    (r =? 9) || (r =? 10) || (r =? 11) || (r =? 12) || (r =? 13)
    || (r =? 32) || (r =? 133) || (r =? 160)
  else
    (r =? 5760) || ((8192 <=? r) && (r <=? 8202))
    || (r =? 8232) || (r =? 8233) || (r =? 8239) || (r =? 8287)
    || (r =? 12288).

End unicode.

(** ** Package [strings] *)

Module strings.

Fixpoint HasPrefix (s prefix : gostring) : bool :=
  match prefix, s with
  | [], _ => true
  | p :: prefix', r :: s' => (r =? p) && HasPrefix s' prefix'
  | _ :: _, [] => false
  end.

Definition TrimPrefix (s prefix : gostring) : gostring :=
  if HasPrefix s prefix then drop (length prefix) s else s.

Fixpoint TrimLeftFunc (f : rune -> bool) (s : gostring) : gostring :=
  match s with
  | [] => []
  | r :: s' => if f r then TrimLeftFunc f s' else s
  end.

Definition TrimRightFunc (f : rune -> bool) (s : gostring) : gostring :=
  rev (TrimLeftFunc f (rev s)).

Definition TrimSpace (s : gostring) : gostring :=
  TrimRightFunc unicode.IsSpace (TrimLeftFunc unicode.IsSpace s).

(** [Replace] with a non-empty [old] and [n < 0]: occurrences are found
    left to right and do not overlap.  [skip] counts the runes of the
    occurrence being replaced that are still to be passed over. *)
Fixpoint replaceFrom (old new : gostring) (skip : nat) (s : gostring)
  : gostring :=
  match s with
  | [] => []
  | r :: s' =>
      match skip with
      | S k => replaceFrom old new k s'
      | O =>
          if HasPrefix s old
          then new ++ replaceFrom old new (length old - 1) s'
          else r :: replaceFrom old new 0 s'
      end
  end.

Definition ReplaceAll (s old new : gostring) : gostring :=
  if decide (old = new) then s
  else match old with
       | [] => new ++ flat_map (fun r => r :: new) s
       | _ :: _ => replaceFrom old new 0 s
       end.

(** [Fields]: [start] is the field being read ([start >= 0] in the
    source), with the runes read so far. *)
Fixpoint fieldsFrom (start : option gostring) (s : gostring)
  : list gostring :=
  match s with
  | [] => match start with Some w => [w] | None => [] end
  | r :: s' =>
      if unicode.IsSpace r then
        match start with
        | Some w => w :: fieldsFrom None s'
        | None => fieldsFrom None s'
        end
      else
        fieldsFrom (Some (match start with
                          | Some w => w ++ [r]
                          | None => [r]
                          end)) s'
  end.

Definition Fields (s : gostring) : list gostring := fieldsFrom None s.

Fixpoint Join (elems : list gostring) (sep : gostring) : gostring :=
  match elems with
  | [] => []
  | [e] => e
  | e :: rest => e ++ sep ++ Join rest sep
  end.

Section EqualFold.

(** The walk over [unicode.SimpleFold]'s orbit of [sr] up to [tr], for
    [sr < tr] and [tr] outside ASCII: the case tables of package
    [unicode] are not part of this repository. *)
Variable foldOrbit : rune -> rune -> bool.

Definition equalFoldRune (sr tr : rune) : bool :=
  if tr =? sr then true
  else
    let (sr, tr) := if tr <? sr then (tr, sr) else (sr, tr) in
    if tr <? utf8.RuneSelf then
      (65 <=? sr) && (sr <=? 90) && (tr =? sr + 32)
    else foldOrbit sr tr.

Fixpoint EqualFold (s t : gostring) : bool :=
  match s, t with
  | [], [] => true
  | sr :: s', tr :: t' => equalFoldRune sr tr && EqualFold s' t'
  | _, _ => false
  end.

End EqualFold.

End strings.


(** ** Errors, results and the outside world *)

(** A Go [error]: [errors.New] / a library error, or [fmt.Errorf] wrapping
    a cause with [%w]. *)
Inductive error : Type :=
| errorString (msg : string)
| wrapError (msg : string) (cause : error).

Inductive result (A : Type) : Type :=
| Ok (a : A)
| Err (e : error).
Arguments Ok {A} a.
Arguments Err {A} e.

(** The maps [{"role": ..., "content": ...}] of the source: always built
    with exactly these two keys. *)
Record Turn : Type := mkTurn { role : gostring; content : gostring }.

(** What the program does to the outside: lines on standard output, log
    records, the request sent to the completion endpoint, and the actions
    on the chat input box. *)
Inductive Event : Type :=
| Println (operands : list gostring)
| LogError (err : option error) (msg : string)
| LogDebug (msg : string) (operand : gostring)
| HttpPost (messages : list Turn)
| Click
| TypeText (text : gostring)
| Press (key : string).

(** *** Answers of the page *)

(** An element whose text is read with [InnerText]. *)
Record TextElement : Type := { InnerText : result gostring }.

(** A mention [span]: its text is read by the mention check (line 239) and
    again when the content is cleaned (line 272). *)
Record MentionElement : Type := {
  mentionInnerText : result gostring;
  mentionInnerTextAgain : result gostring
}.

(** [div[id^='message-reply-context-']] and its [span[class*='username']]. *)
Record ReplyContext : Type := {
  replyUsernameElement : result (option TextElement)
}.

(** The chat input box [div[role='textbox']]: [None] is a call that
    succeeds. *)
Record TextBox : Type := {
  boxClick : option error;
  boxType : option error;
  boxPress : option error
}.

(** A message element [div[role='article']]: the answer of each query the
    program makes on it. *)
Record ElementHandle : Type := {
  dataListItemId : result gostring;
  usernameElement : result (option TextElement);
  innerHTML : result gostring;
  replyContext : result (option ReplyContext);
  mentionElements : result (list MentionElement);
  contentElement : result (option TextElement)
}.

(** *** Answers of the completion endpoint *)

(** A decoded JSON value ([encoding/json] into [interface{}]). *)
Inductive JSON : Type :=
| JNull
| JBool (b : bool)
| JNumber (digits : gostring)
| JString (s : gostring)
| JArray (elems : list JSON)
| JObject (fields : list (gostring * JSON)).

(** The response of [client.Do]: the status code, and the body, which
    [io.ReadAll] may fail to read; a body that was read either is not JSON
    ([None]) or is the text of a JSON value. *)
Record Response : Type := {
  StatusCode : Z;
  Body : result (option JSON)
}.

(** Everything the outside answers while one message of a poll is handled:
    the message element, the completion endpoint (if asked) and the chat
    input box (if looked up). *)
Record Entry : Type := {
  message : ElementHandle;
  completion : result Response;
  textbox : result (option TextBox)
}.

(** ** The service *)

Record Service : Type := mkService {
  seenMessages : gmap gostring bool;
  apiKey : gostring;
  botUsername : gostring;
  conversationHistory : list Turn
}.

(** [s.seenMessages[id]]: a missing key reads as [false]. *)
Definition seen (s : Service) (id : gostring) : bool :=
  default false (seenMessages s !! id).

(** [s.seenMessages[id] = true]. *)
Definition markSeen (id : gostring) (s : Service) : Service :=
  mkService (<[id := true]> (seenMessages s)) (apiKey s) (botUsername s)
    (conversationHistory s).

Definition setHistory (h : list Turn) (s : Service) : Service :=
  mkService (seenMessages s) (apiKey s) (botUsername s) h.

Definition resetSeen (s : Service) : Service :=
  mkService ∅ (apiKey s) (botUsername s) (conversationHistory s).

(** ** The monad of the methods

    A computation reads and updates the [Service], emits events, and ends
    in a value, in a [continue] of the enclosing loop, or in a panic. *)

Inductive Flow (A : Type) : Type :=
| Val (a : A)
| Continue
| Panic (msg : string).
Arguments Val {A} a.
Arguments Continue {A}.
Arguments Panic {A} msg.

Definition M (A : Type) : Type := Service -> Flow A * Service * list Event.

Definition ret {A} (a : A) : M A := fun s => (Val a, s, []).

Definition bind {A B} (m : M A) (f : A -> M B) : M B :=
  fun s =>
    match m s with
    | (Val a, s1, ev1) =>
        match f a s1 with (r, s2, ev2) => (r, s2, ev1 ++ ev2) end
    | (Continue, s1, ev1) => (Continue, s1, ev1)
    | (Panic msg, s1, ev1) => (Panic msg, s1, ev1)
    end.

Declare Scope go_scope.
Delimit Scope go_scope with go.
Notation "'let*' x ':=' m 'in' k" := (bind m (fun x => k))
  (at level 10, x name, m at level 100, k at level 200, only parsing)
  : go_scope.
Notation "m ;; k" := (bind m (fun _ => k))
  (at level 100, k at level 200, right associativity, only parsing)
  : go_scope.
#[local] Open Scope go_scope.

Definition emit (e : Event) : M unit := fun s => (Val tt, s, [e]).
Definition continue {A} : M A := fun s => (Continue, s, []).
Definition panic {A} (msg : string) : M A := fun s => (Panic msg, s, []).
Definition get : M Service := fun s => (Val s, s, []).
Definition modify (f : Service -> Service) : M unit :=
  fun s => (Val tt, f s, []).

(** [if err != nil { s.logger.Error().Err(err).Msg(msg); continue }] *)
Definition orLogContinue {A} (r : result A) (msg : string) : M A :=
  match r with
  | Ok a => ret a
  | Err e => emit (LogError (Some e) msg) ;; continue
  end.

(** [for _, x := range l { body }]: a [continue] in the body goes on with
    the next element, a panic leaves the loop. *)
Fixpoint forEach {A} (l : list A) (body : A -> M unit) : M unit :=
  match l with
  | [] => ret tt
  | a :: rest =>
      fun s =>
        match body a s with
        | (Panic msg, s1, ev1) => (Panic msg, s1, ev1)
        | (_, s1, ev1) =>
            match forEach rest body s1 with
            | (r, s2, ev2) => (r, s2, ev1 ++ ev2)
            end
        end
  end.

(** ** Conversation history (lines 436-443) *)

Definition updateConversationHistory (userMessage assistantMessage : Turn)
  : M unit :=
  modify (fun s => setHistory (conversationHistory s ++ [userMessage]) s) ;;
  modify (fun s => setHistory (conversationHistory s ++ [assistantMessage]) s) ;;
  let* s := get in
  if (10 <? length (conversationHistory s))%nat then
    modify (setHistory
              (drop (length (conversationHistory s) - 10)
                 (conversationHistory s)))
  else ret tt.

(** ** The completion call (lines 347-434) *)

Definition quote : gostring := [34].
Definition newline : gostring := [10].

Definition systemPrompt : gostring :=
  str "Отвечай пользователю от первого лица единственного числа." ++ newline ++
  str "Твои ответы всегда на русском языке." ++ newline ++
  str "Ты не используешь запятые в своих предложениях. Вместо точек начинай новую строку." ++ newline ++
  str "Не задавай вопросов вроде " ++ quote ++ str "Чем я могу помочь?" ++ quote ++ str " или подобных." ++ newline ++
  str "Твои ответы должны быть краткими, не более 50 слов, и создавать впечатление, что говорит реальный человек." ++ newline ++
  str "Все символы, кроме первого в строке, должны быть в нижнем регистре." ++ newline ++
  str "Ты можешь использовать только вопросительные и восклицательные знаки; не используй другие символы вроде дефисов.".

(** [m[key]] on a decoded JSON object: of two members with the same name
    the decoder keeps the later one. *)
Fixpoint mapIndex (m : list (gostring * JSON)) (key : gostring)
  : option JSON :=
  match m with
  | [] => None
  | (k, v) :: rest =>
      match mapIndex rest key with
      | Some v' => Some v'
      | None => if decide (k = key) then Some v else None
      end
  end.

(** [json.Unmarshal(bodyBytes, &respData)] with
    [respData map[string]interface{}]: an object fills the map, [null]
    leaves it nil, any other value and any text that is not JSON is an
    error. *)
Definition Unmarshal (body : option JSON)
  : result (list (gostring * JSON)) :=
  match body with
  | None => Err (errorString "invalid character")
  | Some (JObject fields) => Ok fields
  | Some JNull => Ok []
  | Some _ => Err (errorString "json: cannot unmarshal into Go value of type map[string]interface {}")
  end.

(** Lines 414-420: the reply is trimmed, loses its commas, has its periods
    turned into line breaks and is cut to 50 words. *)
Definition shapeReply (content : gostring) : gostring :=
  let content := strings.TrimSpace content in
  let content := strings.ReplaceAll content (str ",") [] in
  let content := strings.ReplaceAll content (str ".") newline in
  let words := strings.Fields content in
  if (50 <? length words)%nat
  then strings.Join (take 50 words) (str " ")
  else content.

Definition invalidResponseFormat : M (result gostring) :=
  ret (Err (errorString "invalid response format")).

(** [json.Marshal] of the request (strings, a slice of string maps, an int
    and a float) and [http.NewRequest] with a constant method and URL do
    not fail; the request goes out with [client.Do]. *)
Definition askChatGPT (message : gostring) (do : result Response)
  : M (result gostring) :=
  let message := strings.ReplaceAll message (str ",") [] in
  let message := strings.ReplaceAll message (str ".") newline in
  let* s := get in
  let messages :=
    [mkTurn (str "system") systemPrompt]
      ++ conversationHistory s
      ++ [mkTurn (str "user") message] in
  emit (HttpPost messages) ;;
  match do with
  | Err e => ret (Err (wrapError "failed to send request" e))
  | Ok resp =>
      match Body resp with
      | Err e => ret (Err (wrapError "failed to read response body" e))
      | Ok bodyBytes =>
          if negb (StatusCode resp =? 200)%Z then
            ret (Err (errorString "received non-OK HTTP status"))
          else
            match Unmarshal bodyBytes with
            | Err e => ret (Err (wrapError "failed to parse response" e))
            | Ok respData =>
                match mapIndex respData (str "choices") with
                | Some (JArray (choice0 :: _)) =>
                    match choice0 with
                    | JObject firstChoice =>
                        match mapIndex firstChoice (str "message") with
                        | Some (JObject messageMap) =>
                            match mapIndex messageMap (str "content") with
                            | Some (JString content) =>
                                let content := shapeReply content in
                                updateConversationHistory
                                  (mkTurn (str "user") message)
                                  (mkTurn (str "assistant") content) ;;
                                ret (Ok content)
                            | _ => invalidResponseFormat
                            end
                        | _ => invalidResponseFormat
                        end
                    | _ =>
                        panic "interface conversion: interface {} is not map[string]interface {}"
                    end
                | _ => invalidResponseFormat
                end
            end
      end
  end.

(** ** Typing the reply into the chat (lines 445-469) *)

Definition typeInChat (response : gostring) (inputBox : result (option TextBox))
  : M (option error) :=
  match inputBox with
  | Err e => ret (Some (wrapError "failed to find text input box" e))
  | Ok None => ret (Some (errorString "text input box not found"))
  | Ok (Some box) =>
      emit Click ;;
      match boxClick box with
      | Some e => ret (Some (wrapError "failed to click on text input box" e))
      | None =>
          emit (TypeText response) ;;
          match boxType box with
          | Some e => ret (Some (wrapError "failed to type response" e))
          | None =>
              emit (Press "Enter") ;;
              match boxPress box with
              | Some e => ret (Some (wrapError "failed to send message" e))
              | None => ret None
              end
          end
      end
  end.

Section Watch.

(** The case tables of package [unicode], see [strings.EqualFold]. *)
Variable foldOrbit : rune -> rune -> bool.

(** [strings.EqualFold(strings.TrimPrefix(strings.TrimSpace(name), "@"),
    s.botUsername)]: the comparison made on the author (lines 220-222), on
    the author of the replied-to message (lines 318-320) and on each
    mention (lines 244-246). *)
Definition namesBot (name : gostring) (s : Service) : bool :=
  let name := strings.TrimSpace name in
  let name := strings.TrimPrefix name (str "@") in
  strings.EqualFold foldOrbit name (botUsername s).

(** ** The reply-target check (lines 299-324) *)

Definition isReplyToBot (s : Service) (message : ElementHandle)
  : result bool :=
  match replyContext message with
  | Err e => Err (wrapError "failed to get reply context" e)
  | Ok None => Ok false
  | Ok (Some replyContext) =>
      match replyUsernameElement replyContext with
      | Err e => Err (wrapError "failed to get username in reply context" e)
      | Ok None => Ok false
      | Ok (Some usernameElement) =>
          match InnerText usernameElement with
          | Err e => Err (wrapError "failed to get username text" e)
          | Ok username => if namesBot username s then Ok true else Ok false
          end
      end
  end.

(** ** The initialization pass (lines 326-345) *)

Definition initializeSeenMessages (messages : result (list ElementHandle))
  : M (option error) :=
  match messages with
  | Err e => ret (Some (wrapError "failed to select message elements" e))
  | Ok messages =>
      forEach messages (fun message =>
        let* idAttr :=
          orLogContinue (dataListItemId message)
            "Failed to get message ID during initialization" in
        if decide (idAttr = []) then continue
        else modify (markSeen idAttr)) ;;
      ret None
  end.

(** ** The watch loop (lines 170-297) *)

(** Lines 238-250: is one of the mentions the bot? *)
Fixpoint isMentionedLoop (mentionElements : list MentionElement) : M bool :=
  match mentionElements with
  | [] => ret false
  | mention :: rest =>
      match mentionInnerText mention with
      | Err e =>
          emit (LogError (Some e) "Failed to get mention text") ;;
          isMentionedLoop rest
      | Ok mentionText =>
          let* s := get in
          if namesBot mentionText s then ret true
          else isMentionedLoop rest
      end
  end.

(** Lines 270-274: every mention's text is cut out of the content.  The
    error of [InnerText] is dropped, its text is then empty. *)
Fixpoint stripMentions (cleanContent : gostring)
  (mentionElements : list MentionElement) : gostring :=
  match mentionElements with
  | [] => cleanContent
  | mention :: rest =>
      let mentionText :=
        match mentionInnerTextAgain mention with
        | Ok text => text
        | Err _ => []
        end in
      stripMentions (strings.ReplaceAll cleanContent mentionText []) rest
  end.

(** Lines 190-289: the body of the loop over the messages of one poll. *)
Definition readMessage (entry : Entry) : M unit :=
  let message := message entry in
  let* idAttr :=
    orLogContinue (dataListItemId message) "Failed to get message ID" in
  if decide (idAttr = []) then continue else
  let* s := get in
  if seen s idAttr then continue else
  modify (markSeen idAttr) ;;
  let* usernameElement :=
    orLogContinue (usernameElement message)
      "Failed to get username element" in
  match usernameElement with
  | None =>
      emit (LogError None "Username element not found") ;;
      let htmlContent :=
        match innerHTML message with Ok html => html | Err _ => [] end in
      emit (LogDebug "Message HTML: %s" htmlContent) ;;
      continue
  | Some usernameElement =>
      let* username :=
        orLogContinue (InnerText usernameElement)
          "Failed to get username text" in
      let* s := get in
      if namesBot username s then continue else
      let* isReply :=
        orLogContinue (isReplyToBot s message)
          "Failed to check if message is a reply to bot" in
      let* mentionElements :=
        orLogContinue (mentionElements message)
          "Failed to get mention elements" in
      let* isMentioned := isMentionedLoop mentionElements in
      if isMentioned || isReply then
        let* contentElement :=
          orLogContinue (contentElement message)
            "Failed to get message content element" in
        match contentElement with
        | None =>
            emit (LogError None "Message content element not found") ;;
            continue
        | Some contentElement =>
            let* content :=
              orLogContinue (InnerText contentElement)
                "Failed to get message text" in
            let content := strings.TrimSpace content in
            emit (Println [str "Detected message to bot:"; content]) ;;
            let cleanContent := stripMentions content mentionElements in
            let cleanContent := strings.TrimSpace cleanContent in
            let* response := askChatGPT cleanContent (completion entry) in
            let* responseText :=
              orLogContinue response "Failed to get response from ChatGPT" in
            emit (Println [str "ChatGPT response:"; responseText]) ;;
            let* err := typeInChat responseText (textbox entry) in
            match err with
            | Some e =>
                emit (LogError (Some e) "Failed to reply in chat") ;;
                continue
            | None => ret tt
            end
        end
      else ret tt
  end.

(** One turn of the outer loop: the context is done, or the page is
    queried for the messages. *)
Inductive Tick : Type :=
| CtxDone (err : error)
| Poll (messages : result (list Entry)).

(** [ReadMessages] returns an error, or is still in its loop when the
    ticks given are used up. *)
Inductive Watch : Type :=
| Returned (err : error)
| Polling.

(** Lines 180-294; [time.Sleep] between two polls has no effect on the
    state. *)
Fixpoint pollLoop (ticks : list Tick) : M Watch :=
  match ticks with
  | [] => ret Polling
  | CtxDone err :: _ => ret (Returned err)
  | Poll (Err e) :: _ =>
      ret (Returned (wrapError "failed to select message elements" e))
  | Poll (Ok messages) :: rest =>
      forEach messages readMessage ;;
      pollLoop rest
  end.

Definition ReadMessages (initial : result (list ElementHandle))
  (ticks : list Tick) : M Watch :=
  modify resetSeen ;;
  emit (Println [str "Initializing seen messages..."]) ;;
  let* err := initializeSeenMessages initial in
  match err with
  | Some e =>
      ret (Returned (wrapError "failed to initialize seen messages" e))
  | None =>
      emit (Println [str "Starting to read new messages..."]) ;;
      pollLoop ticks
  end.

End Watch.

(** ** Construction (lines 35-67)

    [New] reads the key and the bot's name from the environment; with both
    set and the browser installed the service starts with nothing seen and
    an empty history. *)
Definition New (apiKey botUsername : gostring) : Service :=
  mkService ∅ apiKey botUsername [].

(** ** Vocabulary of the properties *)

(** The requests sent to the completion endpoint. *)
Fixpoint completionCalls (events : list Event) : list (list Turn) :=
  match events with
  | [] => []
  | HttpPost messages :: rest => messages :: completionCalls rest
  | _ :: rest => completionCalls rest
  end.

(** The actions on the chat input box. *)
Fixpoint injections (events : list Event) : list Event :=
  match events with
  | [] => []
  | Click :: rest => Click :: injections rest
  | TypeText text :: rest => TypeText text :: injections rest
  | Press key :: rest => Press key :: injections rest
  | _ :: rest => injections rest
  end.

(** One exchange: the user's turn and the assistant's turn, as
    [askChatGPT] commits them. *)
Definition exchange (p : gostring * gostring) : list Turn :=
  [mkTurn (str "user") (fst p); mkTurn (str "assistant") (snd p)].

(** A sequence of commits, each of one user/assistant pair. *)
Definition commitAll (pairs : list (gostring * gostring)) : M unit :=
  forEach pairs (fun p =>
    updateConversationHistory
      (mkTurn (str "user") (fst p)) (mkTurn (str "assistant") (snd p))).

(** The history a computation leaves. *)
Definition historyAfter {A} (m : M A) (s : Service) : list Turn :=
  conversationHistory (snd (fst (m s))).

(** A word: not empty, no white space in it. *)
Definition isWord (w : gostring) : Prop :=
  w <> [] /\ Forall (fun r => unicode.IsSpace r = false) w.

(** A response with status 200 whose body is a JSON object with the text
    [raw] at [choices[0].message.content]. *)
Definition carries (resp : Response) (raw : gostring) : Prop :=
  exists respData firstChoice others messageMap,
    StatusCode resp = 200%Z /\
    Body resp = Ok (Some (JObject respData)) /\
    mapIndex respData (str "choices")
      = Some (JArray (JObject firstChoice :: others)) /\
    mapIndex firstChoice (str "message") = Some (JObject messageMap) /\
    mapIndex messageMap (str "content") = Some (JString raw).

(** The reply text after the conversion of its punctuation, before the cut
    to 50 words. *)
Definition convertPunctuation (raw : gostring) : gostring :=
  strings.ReplaceAll
    (strings.ReplaceAll (strings.TrimSpace raw) (str ",") [])
    (str ".") newline.

(** The history after a commit of [userMessage] and [assistantMessage]. *)
Definition committed (h : list Turn) (userMessage assistantMessage : Turn)
  : list Turn :=
  let h' := (h ++ [userMessage]) ++ [assistantMessage] in
  if (10 <? length h')%nat then drop (length h' - 10) h' else h'.

(** The user's message as [askChatGPT] sends and stores it (lines
    348-349). *)
Definition userContent (message : gostring) : gostring :=
  strings.ReplaceAll (strings.ReplaceAll message (str ",") [])
    (str ".") newline.

(** The request [askChatGPT] sends for [message] in state [s]. *)
Definition request (s : Service) (message : gostring) : list Turn :=
  [mkTurn (str "system") systemPrompt]
    ++ conversationHistory s
    ++ [mkTurn (str "user") (userContent message)].

(** [wp m Q s]: running [m] from [s] ends in a result, a state and
    events that satisfy [Q]. *)
Definition wp {A} (m : M A)
  (Q : Flow A -> Service -> list Event -> Prop) (s : Service) : Prop :=
  Q (fst (fst (m s))) (snd (fst (m s))) (snd (m s)).

(** The postcondition of [m] in [bind m f] with postcondition [Q]. *)
Definition wpBind {A B} (f : A -> M B)
  (Q : Flow B -> Service -> list Event -> Prop)
  : Flow A -> Service -> list Event -> Prop :=
  fun r s1 ev1 =>
    match r with
    | Val a => wp (f a) (fun r2 s2 ev2 => Q r2 s2 (ev1 ++ ev2)) s1
    | Continue => Q Continue s1 ev1
    | Panic msg => Q (Panic msg) s1 ev1
    end.

(** A message the loop can answer: its id is new, and the author (not the
    bot), the reply target, the mentions and the content can all be
    read. *)
Definition answerable (foldOrbit : rune -> rune -> bool) (s : Service)
  (message : ElementHandle) : Prop :=
  exists id usernameEl author isReply mentions contentEl text,
    dataListItemId message = Ok id /\ id <> [] /\ seen s id = false /\
    usernameElement message = Ok (Some usernameEl) /\
    InnerText usernameEl = Ok author /\
    namesBot foldOrbit author s = false /\
    isReplyToBot foldOrbit s message = Ok isReply /\
    mentionElements message = Ok mentions /\
    contentElement message = Ok (Some contentEl) /\
    InnerText contentEl = Ok text.

(** Nothing was asked of the completion endpoint, nothing was done to the
    chat input box, and the history is the one of [s]. *)
Definition quiet (s s' : Service) (events : list Event) : Prop :=
  completionCalls events = [] /\ injections events = [] /\
  conversationHistory s' = conversationHistory s.

(** From [s] to [s'] the bot keeps its name and no id leaves the seen
    set. *)
Definition keeps (s s' : Service) : Prop :=
  botUsername s' = botUsername s /\
  forall id, seen s id = true -> seen s' id = true.

(** An element that cannot be read: the query fails, finds nothing, or
    finds an element whose text cannot be read. *)
Definition unreadable (el : result (option TextElement)) : Prop :=
  match el with
  | Ok (Some t) =>
      match InnerText t with Ok _ => False | Err _ => True end
  | _ => True
  end.

(** The author, the mentions or the content of a message cannot be
    read. *)
Definition extractionFails (message : ElementHandle) : Prop :=
  unreadable (usernameElement message) \/
  (exists e, mentionElements message = Err e) \/
  unreadable (contentElement message).

(** The ids of [messages] that can be read and are not empty are all in
    the seen set of [s]. *)
Definition allSeen (s : Service) (messages : list ElementHandle) : Prop :=
  Forall (fun m =>
            match dataListItemId m with
            | Ok id => id = [] \/ seen s id = true
            | Err _ => True
            end) messages.

(** Lower case of an ASCII letter; other runes are left as they are. *)
Definition toLowerASCII (r : rune) : rune :=
  if (65 <=? r) && (r <=? 90) then r + 32 else r.

Definition isASCII (s : gostring) : Prop := Forall (fun r => r < 128) s.

(** The text of [mention] can be read and names the bot. *)
Definition mentionsBot (foldOrbit : rune -> rune -> bool) (s : Service)
  (mention : MentionElement) : bool :=
  match mentionInnerText mention with
  | Ok text =>
      strings.EqualFold foldOrbit
        (strings.TrimPrefix (strings.TrimSpace text) (str "@"))
        (botUsername s)
  | Err _ => false
  end.

(** ** Sample inputs *)

(** The case table that folds no letter outside ASCII: enough for the
    names below, which never reach it. *)
Definition asciiFold : rune -> rune -> bool := fun _ _ => false.

(** A well-formed answer of the completion endpoint with the text [raw]. *)
Definition okResponse (raw : gostring) : Response :=
  {| StatusCode := 200;
     Body := Ok (Some (JObject
       [(str "choices",
         JArray [JObject
           [(str "message", JObject [(str "content", JString raw)])]])])) |}.

Definition textOf (text : gostring) : TextElement :=
  {| InnerText := Ok text |}.

Definition mentionOf (text : gostring) : MentionElement :=
  {| mentionInnerText := Ok text; mentionInnerTextAgain := Ok text |}.

(** A message that is not a reply, with everything readable. *)
Definition messageOf (id author : gostring) (mentions : list gostring)
  (text : gostring) : ElementHandle :=
  {| dataListItemId := Ok id;
     usernameElement := Ok (Some (textOf author));
     innerHTML := Ok [];
     replyContext := Ok None;
     mentionElements := Ok (map mentionOf mentions);
     contentElement := Ok (Some (textOf text)) |}.

(** An input box on which every action succeeds. *)
Definition workingBox : result (option TextBox) :=
  Ok (Some {| boxClick := None; boxType := None; boxPress := None |}).

Definition entryOf (message : ElementHandle) (completion : result Response)
  : Entry :=
  {| message := message; completion := completion; textbox := workingBox |}.

(** An answer with status 200 whose [choices[0]] is [null]. *)
Definition nullChoiceResponse : Response :=
  {| StatusCode := 200;
     Body := Ok (Some (JObject [(str "choices", JArray [JNull])])) |}.

(** The message of the mention scenario: id [m1], one mention with the
    text [Bot], content [@Bot hello.]. *)
Definition mentionMessage (author : gostring) : ElementHandle :=
  messageOf (str "m1") author [str "Bot"] (str "@Bot hello.").

(** A reply of 120 words, each a letter followed by a period. *)
Definition longReply : gostring :=
  flat_map (fun n => [97 + N.of_nat (n mod 26); 46; 32]) (seq 0 120).

(** ** Vocabulary of further properties *)

(** The mention check or the reply-target check finds the bot. *)
Definition addressed (foldOrbit : rune -> rune -> bool) (s : Service)
  (mentions : list MentionElement) (isReply : bool) : bool :=
  existsb (mentionsBot foldOrbit s) mentions || isReply.

(** The log records of the mention check: one for each mention whose text
    cannot be read, up to the first mention that names the bot. *)
Fixpoint mentionLog (foldOrbit : rune -> rune -> bool) (s : Service)
  (mentions : list MentionElement) : list Event :=
  match mentions with
  | [] => []
  | mention :: rest =>
      match mentionInnerText mention with
      | Err e =>
          LogError (Some e) "Failed to get mention text"
            :: mentionLog foldOrbit s rest
      | Ok _ =>
          if mentionsBot foldOrbit s mention then []
          else mentionLog foldOrbit s rest
      end
  end.

(** Neither a comma nor a period. *)
Definition noPunctuation (text : gostring) : Prop :=
  ~ In 44 text /\ ~ In 46 text.

(** Every value stored in the seen set is [true]. *)
Definition onlyTrue (s : Service) : Prop :=
  forall id v, seenMessages s !! id = Some v -> v = true.

(** Status 200 and a body that parses, whose [choices] is an array with a
    first element that is not an object: the input of the type assertion
    of line 411. *)
Definition malformedChoice (resp : Response) : Prop :=
  exists body respData choice0 rest,
    StatusCode resp = 200%Z /\
    Body resp = Ok body /\
    Unmarshal body = Ok respData /\
    mapIndex respData (str "choices") = Some (JArray (choice0 :: rest)) /\
    forall fields, choice0 <> JObject fields.

(** A history made of whole exchanges, at most five, none of whose turns
    has a comma or a period. *)
Definition exchanges (h : list Turn) : Prop :=
  exists pairs,
    (length pairs <= 5)%nat /\
    h = flat_map exchange pairs /\
    Forall (fun p => noPunctuation (fst p) /\ noPunctuation (snd p)) pairs.

(** A request made of the system prompt, a history of whole exchanges and
    one user turn without comma and period. *)
Definition wellFormedRequest (messages : list Turn) : Prop :=
  exists h user,
    exchanges h /\ noPunctuation user /\
    messages
    = [mkTurn (str "system") systemPrompt] ++ h ++ [mkTurn (str "user") user].

(** Every message of the poll answers the query for its id as a message of
    the enumeration [initial] did. *)
Definition presentAtStart (initial : list ElementHandle) (tick : Tick)
  : Prop :=
  match tick with
  | Poll (Ok entries) =>
      Forall (fun entry =>
                In (dataListItemId (message entry))
                  (map dataListItemId initial)) entries
  | _ => True
  end.

(** ** Package [config] (internal/config/config.go) *)

Module config.

(** The errors [Validate] builds: the two sentinels of lines 12-13, an
    error of [url.Parse], [fmt.Errorf] with one [%w] (and the integers it
    formats), and [errors.Join]. *)
Inductive error : Type :=
| ErrMissing
| ErrMustBePositive
| urlError (msg : string)
| Errorf (format : string) (args : list Z) (cause : error)
| joinError (errs : list error).

(** [errors.Join]: the nil errors are dropped; with none left the result
    is nil. *)
Definition Join (errs : list (option error)) : option error :=
  match omap id errs with
  | [] => None
  | errs => Some (joinError errs)
  end.

(** [errors.Is(err, target)] for a sentinel [target]: the walk through
    [Unwrap() error] of [fmt.Errorf]'s value and [Unwrap() []error] of
    [errors.Join]'s.  An error of [url.Parse] holds no sentinel of this
    package. *)
Fixpoint Is (err target : error) : bool :=
  match err with
  | ErrMissing => match target with ErrMissing => true | _ => false end
  | ErrMustBePositive =>
      match target with ErrMustBePositive => true | _ => false end
  | urlError _ => false
  | Errorf _ _ cause => Is cause target
  | joinError errs => existsb (fun err => Is err target) errs
  end.

(** [time.Duration] and [int] are signed 64-bit integers; [Validate] only
    compares them with 0. *)
Record SiteConfig : Type := {
  SiteURL : gostring;
  SearchInputSelector : gostring;
  TagsSelector : gostring;
  RequestsSelector : gostring;
  InitialRequestsSelector : gostring;
  BrandsSelector : gostring;
  TipsParentElementSelector : gostring
}.

Record Config : Type := {
  SiteConfigs : list SiteConfig;
  PauseBetweenQueries : Z;
  PauseAfterError : Z;
  ExpectedResponseTime : Z;
  TypingSpeedOneCharacter : Z;
  SuggestionUpdateTimeout : Z;
  TipsParentElementTimeout : Z;
  RetryDelayOpenSite : Z;
  RetriesOpenSite : Z;
  SavePath : gostring;
  RemoveDirAfter : bool;
  Headless : bool
}.

(** [if cond { errs = errors.Join(errs, err) }] *)
Definition joinIf (cond : bool) (err : error) (errs : option error)
  : option error :=
  if cond then Join [errs; Some err] else errs.

Definition isEmpty (s : gostring) : bool := bool_decide (s = []).

Section Validate.

(** [url.Parse] of the standard library: the text of its error, if any. *)
Variable urlParse : gostring -> option string.

(** [SiteConfig.Validate], lines 84-114. *)
Definition SiteConfig_Validate (sc : SiteConfig) : option error :=
  let errs := None in
  let errs :=
    joinIf (isEmpty (SiteURL sc)) (Errorf "siteURL %w" [] ErrMissing) errs in
  let errs :=
    match urlParse (SiteURL sc) with
    | Some msg =>
        Join [errs; Some (Errorf "siteURL not valid: %w" [] (urlError msg))]
    | None => errs
    end in
  let errs :=
    joinIf (isEmpty (SearchInputSelector sc))
      (Errorf "searchInputSelector %w" [] ErrMissing) errs in
  let errs :=
    joinIf (isEmpty (TagsSelector sc))
      (Errorf "tagsSelector %w" [] ErrMissing) errs in
  let errs :=
    joinIf (isEmpty (RequestsSelector sc))
      (Errorf "requestsSelector %w" [] ErrMissing) errs in
  let errs :=
    joinIf (isEmpty (InitialRequestsSelector sc))
      (Errorf "initialRequestsSelector %w" [] ErrMissing) errs in
  let errs :=
    joinIf (isEmpty (BrandsSelector sc))
      (Errorf "brandsSelector %w" [] ErrMissing) errs in
  let errs :=
    joinIf (isEmpty (TipsParentElementSelector sc))
      (Errorf "tipsParentElementSelector %w" [] ErrMissing) errs in
  errs.

(** Lines 37-41: [for i, sc := range c.SiteConfigs]. *)
Fixpoint validateSiteConfigs (i : Z) (scs : list SiteConfig)
  (errs : option error) : option error :=
  match scs with
  | [] => errs
  | sc :: rest =>
      let errs :=
        match SiteConfig_Validate sc with
        | Some err =>
            Join [errs; Some (Errorf "siteConfig #%d not valid: %w" [i] err)]
        | None => errs
        end in
      validateSiteConfigs (i + 1) rest errs
  end.

(** [Config.Validate], lines 31-72. *)
Definition Config_Validate (c : Config) : option error :=
  let errs := None in
  let errs :=
    joinIf (Nat.eqb (length (SiteConfigs c)) 0)
      (Errorf "siteConfigs is %w" [] ErrMissing) errs in
  let errs := validateSiteConfigs 0 (SiteConfigs c) errs in
  let errs :=
    joinIf (PauseBetweenQueries c <? 0)%Z
      (Errorf "pauseBetweenQueries %w" [] ErrMustBePositive) errs in
  let errs :=
    joinIf (PauseAfterError c <? 0)%Z
      (Errorf "PauseAfterError %w" [] ErrMustBePositive) errs in
  let errs :=
    joinIf (ExpectedResponseTime c <? 0)%Z
      (Errorf "expectedResponseTime %w" [] ErrMustBePositive) errs in
  let errs :=
    joinIf (TypingSpeedOneCharacter c <? 0)%Z
      (Errorf "typingSpeedOneCharacter %w" [] ErrMustBePositive) errs in
  let errs :=
    joinIf (SuggestionUpdateTimeout c <? 0)%Z
      (Errorf "checkPrefixRetryDelay %w" [] ErrMustBePositive) errs in
  let errs :=
    joinIf (RetryDelayOpenSite c <? 0)%Z
      (Errorf "retryDelayOpenSite %w" [] ErrMustBePositive) errs in
  let errs :=
    joinIf (TipsParentElementTimeout c <? 0)%Z
      (Errorf "tipsParentElementTimeout %w" [] ErrMustBePositive) errs in
  let errs :=
    joinIf (RetriesOpenSite c <? 0)%Z
      (Errorf "retriesOpenSite %w" [] ErrMustBePositive) errs in
  let errs :=
    joinIf (isEmpty (SavePath c)) (Errorf "savePath is %w" [] ErrMissing)
      errs in
  errs.

End Validate.

(** Every selector and the URL of the site are set. *)
Definition allSet (sc : SiteConfig) : bool :=
  negb (isEmpty (SiteURL sc)) && negb (isEmpty (SearchInputSelector sc)) &&
  negb (isEmpty (TagsSelector sc)) && negb (isEmpty (RequestsSelector sc)) &&
  negb (isEmpty (InitialRequestsSelector sc)) &&
  negb (isEmpty (BrandsSelector sc)) &&
  negb (isEmpty (TipsParentElementSelector sc)).

(** One of the durations or the number of retries is below zero. *)
Definition someNegative (c : Config) : bool :=
  ((PauseBetweenQueries c <? 0) || (PauseAfterError c <? 0) ||
   (ExpectedResponseTime c <? 0) || (TypingSpeedOneCharacter c <? 0) ||
   (SuggestionUpdateTimeout c <? 0) || (RetryDelayOpenSite c <? 0) ||
   (TipsParentElementTimeout c <? 0) || (RetriesOpenSite c <? 0))%Z.

(** A site with its URL and every selector set. *)
Definition sampleSite : SiteConfig :=
  {| SiteURL := str "https://discord.com/";
     SearchInputSelector := str "input";
     TagsSelector := str ".tags";
     RequestsSelector := str ".requests";
     InitialRequestsSelector := str ".initial";
     BrandsSelector := str ".brands";
     TipsParentElementSelector := str ".tips" |}.

(** A configuration with this one site and every number zero. *)
Definition sample : Config :=
  {| SiteConfigs := [sampleSite];
     PauseBetweenQueries := 0;
     PauseAfterError := 0;
     ExpectedResponseTime := 0;
     TypingSpeedOneCharacter := 0;
     SuggestionUpdateTimeout := 0;
     TipsParentElementTimeout := 0;
     RetryDelayOpenSite := 0;
     RetriesOpenSite := 0;
     SavePath := str "videos";
     RemoveDirAfter := false;
     Headless := false |}.

End config.

(** ** Running the service (lines 69-168) *)

(** The errors of [Run] and [checkSite]: an error of the browser library
    or of [ReadMessages], [fmt.Errorf] with one [%w] around an error (and
    the strings it formats), and [errors.Join] of the deferred clean-up. *)
Inductive runError : Type :=
| libError (e : error)
| wrapRun (format : string) (args : list gostring) (cause : runError)
| joinRun (errs : list runError).

(** [errors.Join]: the nil errors are dropped; with none left the result
    is nil. *)
Definition JoinRun (errs : list (option runError)) : option runError :=
  match omap id errs with
  | [] => None
  | errs => Some (joinRun errs)
  end.

(** *** Answers of the browser *)

(** A page: the answer of [Goto], and what the page and the context answer
    to [ReadMessages], the first enumeration and every turn of its loop. *)
Record Page : Type := {
  Goto : option error;
  initial : result (list ElementHandle);
  ticks : list Tick
}.

Record Browser : Type := {
  NewPage : result Page;
  Close : option error
}.

Record Playwright : Type := { Stop : option error }.

(** One site of [s.config.SiteConfigs] with the answers met while it is
    checked: of [pw.Chromium.Launch], and the value of [input] after each
    [fmt.Scanln(&input)]. *)
Record Site : Type := {
  siteConfig : config.SiteConfig;
  Launch : result Browser;
  scanned : list gostring
}.

(** What [Run] does to the outside. *)
Inductive RunEvent : Type :=
| PlaywrightRun
| LogInfo (msg : string) (site : gostring)
| ChromiumLaunch
| BrowserNewPage
| PageGoto (url : gostring)
| Stdout (line : string)
| Scanln
| Reading (events : list Event)
| BrowserClose
| PlaywrightStop.

(** A call returns an error or nil, panics, or is still blocked when the
    answers given are used up: in the wait for [start] or in the loop of
    [ReadMessages]. *)
Inductive Outcome : Type :=
| Returns (err : option runError)
| Panics (msg : string)
| Blocked.

(** [defer func() { if tmpErr := cleanup(); tmpErr != nil { err =
    errors.Join(err, fmt.Errorf(format, tmpErr)) } }()]: the clean-up runs
    when the body returns and when it panics. *)
Definition deferred (cleanup : RunEvent) (tmpErr : option error)
  (format : string) (body : Outcome * Service * list RunEvent)
  : Outcome * Service * list RunEvent :=
  match body with
  | (Returns err, s, events) =>
      (Returns
         match tmpErr with
         | Some e => JoinRun [err; Some (wrapRun format [] (libError e))]
         | None => err
         end,
       s, events ++ [cleanup])
  | (Panics msg, s, events) => (Panics msg, s, events ++ [cleanup])
  | (Blocked, s, events) => (Blocked, s, events)
  end.

(** Lines 146-157. *)
Definition createPage (browser : Browser) : result Page * list RunEvent :=
  (match NewPage browser with
   | Ok page => Ok page
   | Err e => Err (wrapError "can't create page" e)
   end,
   [BrowserNewPage]).

(** Lines 159-168. *)
Definition openSite (page : Page) (siteConfig : config.SiteConfig)
  : option error * list RunEvent :=
  (match Goto page with
   | Some e => Some (wrapError "can't go to URL" e)
   | None => None
   end,
   [PageGoto (config.SiteURL siteConfig)]).

(** Lines 127-134: the loop ends when [input] is [start]. *)
Fixpoint waitForStart (scanned : list gostring) : bool * list RunEvent :=
  match scanned with
  | [] => (false, [])
  | input :: rest =>
      if decide (input = str "start") then (true, [Scanln])
      else
        let (started, events) := waitForStart rest in
        (started, Scanln :: Stdout "Waiting for 'start' input..." :: events)
  end.

Section Run.

Variable foldOrbit : rune -> rune -> bool.

(** Lines 90-144.  A [continue] does not leave [ReadMessages]. *)
Definition checkSite (site : Site) (s : Service)
  : Outcome * Service * list RunEvent :=
  let start :=
    [LogInfo "starting check site" (config.SiteURL (siteConfig site));
     ChromiumLaunch] in
  match Launch site with
  | Err e =>
      (Returns (Some (wrapRun "can't launch chromium: %w" [] (libError e))),
       s, start)
  | Ok browser =>
      deferred BrowserClose (Close browser) "error closing browser: %w"
        match createPage browser with
        | (Err e, ev1) =>
            (Returns (Some (wrapRun "can't create page: %w" [] (libError e))),
             s, start ++ ev1)
        | (Ok page, ev1) =>
            match openSite page (siteConfig site) with
            | (Some e, ev2) =>
                (Returns
                   (Some (wrapRun "can't open site: %w" [] (libError e))),
                 s, start ++ ev1 ++ ev2)
            | (None, ev2) =>
                let prompt :=
                  [Stdout "Please log in to your Discord account in the opened browser.";
                   Stdout "Once logged in and navigated to the desired channel, enter 'start' to continue..."] in
                let (started, ev3) := waitForStart (scanned site) in
                let before := start ++ ev1 ++ ev2 ++ prompt ++ ev3 in
                if started then
                  match
                    ReadMessages foldOrbit (initial page) (ticks page) s
                  with
                  | (Val (Returned e), s', events) =>
                      (Returns
                         (Some (wrapRun "can't read messages: %w" []
                                  (libError e))),
                       s', before ++ [Reading events])
                  | (Val Polling, s', events) =>
                      (Blocked, s', before ++ [Reading events])
                  | (Continue, s', events) =>
                      (Blocked, s', before ++ [Reading events])
                  | (Panic msg, s', events) =>
                      (Panics msg, s', before ++ [Reading events])
                  end
                else (Blocked, s, before)
            end
        end
  end.

(** Lines 81-85: the loop over the sites. *)
Fixpoint checkSites (sites : list Site) (s : Service)
  : Outcome * Service * list RunEvent :=
  match sites with
  | [] => (Returns None, s, [])
  | site :: rest =>
      match checkSite site s with
      | (Returns None, s', events) =>
          match checkSites rest s' with
          | (r, s'', events') => (r, s'', events ++ events')
          end
      | (Returns (Some checkErr), s', events) =>
          (Returns
             (Some (wrapRun "error checking site %s: %w"
                      [config.SiteURL (siteConfig site)] checkErr)),
           s', events)
      | (r, s', events) => (r, s', events)
      end
  end.

(** Lines 69-88. *)
Definition Run (pwRun : result Playwright) (sites : list Site) (s : Service)
  : Outcome * Service * list RunEvent :=
  match pwRun with
  | Err e =>
      (Returns (Some (wrapRun "can't launch browser: %w" [] (libError e))),
       s, [PlaywrightRun])
  | Ok pw =>
      deferred PlaywrightStop (Stop pw) "error stopping browser: %w"
        match checkSites sites s with
        | (r, s', events) => (r, s', PlaywrightRun :: events)
        end
  end.

End Run.

(** Neither [browser.Close] nor [pw.Stop] is among the events. *)
Definition noCleanUp (events : list RunEvent) : Prop :=
  ~ In BrowserClose events /\ ~ In PlaywrightStop events.

(** ** Construction with the answers of the environment (lines 35-67) *)

Module internal.

(** [New]: the two variables of the environment, [playwright.Install] and
    [os.MkdirAll]. *)
Definition New (PROXY_API_KEY BOT_USERNAME : gostring)
  (Install MkdirAll : option error) : result Service :=
  if decide (PROXY_API_KEY = []) then
    Err (errorString "proxy API key is not set in environment variable PROXY_API_KEY")
  else if decide (BOT_USERNAME = []) then
    Err (errorString "bot username is not set in environment variable BOT_USERNAME")
  else
    match Install with
    | Some e => Err (wrapError "can't install playwright %s" e)
    | None =>
        match MkdirAll with
        | Some e => Err (wrapError "can't create dir %s" e)
        | None => Ok (New PROXY_API_KEY BOT_USERNAME)
        end
    end.

End internal.

(** ** The command (cmd/main.go) *)

Module cmd.





Section Main.

Variable foldOrbit : rune -> rune -> bool.


End Main.

End cmd.

(** * Properties *)

(** ** Package [strings] on the examples of its documentation *)

Example str_cyrillic : str "Я не" = [1071; 32; 1085; 1077].
Proof. reflexivity. Qed.

Example Fields_example :
  strings.Fields (str "  foo bar  baz   ") = [str "foo"; str "bar"; str "baz"].
Proof. reflexivity. Qed.

Example Join_example :
  strings.Join [str "foo"; str "bar"; str "baz"] (str ", ")
  = str "foo, bar, baz".
Proof. reflexivity. Qed.

Example TrimSpace_example :
  strings.TrimSpace ([32; 9; 10; 32] ++ str "Hello, Gophers" ++ [32; 10; 9; 13; 10])
  = str "Hello, Gophers".
Proof. reflexivity. Qed.

Example TrimPrefix_example :
  strings.TrimPrefix (str "@@Bot") (str "@") = str "@Bot".
Proof. reflexivity. Qed.

Example ReplaceAll_example :
  strings.ReplaceAll (str "oink oink oink") (str "oink") (str "moo")
  = str "moo moo moo".
Proof. reflexivity. Qed.

Example ReplaceAll_no_overlap :
  strings.ReplaceAll (str "aaa") (str "aa") (str "b") = str "ba".
Proof. reflexivity. Qed.

Example ReplaceAll_empty_old :
  strings.ReplaceAll (str "abc") [] (str "-") = str "-a-b-c-".
Proof. reflexivity. Qed.

Example ReplaceAll_empty_both :
  strings.ReplaceAll (str "abc") [] [] = str "abc".
Proof. reflexivity. Qed.

Example EqualFold_example :
  strings.EqualFold asciiFold (str "Go") (str "GO") = true.
Proof. reflexivity. Qed.

Example EqualFold_length :
  strings.EqualFold asciiFold (str "Go") (str "Gos") = false.
Proof. reflexivity. Qed.

(** ** Words *)

Lemma fieldsFrom_word (w s : gostring) (start : option gostring) :
  w <> [] ->
  Forall (fun r => unicode.IsSpace r = false) w ->
  strings.fieldsFrom start (w ++ s)
  = strings.fieldsFrom (Some (default [] start ++ w)) s.
Proof.
  revert start. induction w as [|r w IH]; intros start Hne Hw; [done|].
  inversion Hw as [|? ? Hr Hw']; subst.
  cbn [app strings.fieldsFrom]. rewrite Hr.
  destruct w as [|r' w].
  - cbn. by destruct start.
  - rewrite IH by done. destruct start; cbn; by rewrite <- ?app_assoc.
Qed.

Lemma Fields_Join (ws : list gostring) :
  Forall isWord ws -> strings.Fields (strings.Join ws (str " ")) = ws.
Proof.
  unfold strings.Fields.
  induction ws as [|w ws IH]; intros Hws; [done|].
  inversion Hws as [|? ? [Hne Hw] Hws']; subst.
  destruct ws as [|w' ws].
  - cbn [strings.Join]. rewrite <- (app_nil_r w) at 1.
    by rewrite fieldsFrom_word.
  - change (strings.Join (w :: w' :: ws) (str " "))
      with (w ++ 32 :: strings.Join (w' :: ws) (str " ")).
    rewrite fieldsFrom_word by done.
    cbn [strings.fieldsFrom default app].
    change (unicode.IsSpace 32) with true. cbn iota.
    by rewrite IH.
Qed.

Lemma fieldsFrom_words (s : gostring) (start : option gostring) :
  (forall w, start = Some w -> isWord w) ->
  Forall isWord (strings.fieldsFrom start s).
Proof.
  revert start. induction s as [|r s IH]; intros start Hstart.
  - destruct start; cbn; auto.
  - cbn [strings.fieldsFrom]. destruct (unicode.IsSpace r) eqn:Hr.
    + destruct start.
      * constructor; [by apply Hstart|]. by apply IH.
      * by apply IH.
    + apply IH. intros w [= <-]. destruct start as [w0|].
      * destruct (Hstart w0 eq_refl) as [Hne Hw]. split.
        -- by destruct w0.
        -- apply Forall_app. auto.
      * split; [done|]. auto.
Qed.

Lemma Fields_words (s : gostring) : Forall isWord (strings.Fields s).
Proof. apply fieldsFrom_words. discriminate. Qed.

(** ** The monad *)

#[local] Arguments Nat.ltb : simpl never.

Ltac run := unfold bind, ret, emit, get, modify, continue, panic,
  orLogContinue, invalidResponseFormat; cbn.

Lemma updateConversationHistory_eq (u a : Turn) (s : Service) :
  updateConversationHistory u a s
  = (Val tt, setHistory (committed (conversationHistory s) u a) s, []).
Proof.
  unfold updateConversationHistory, committed. run.
  destruct (10 <? _)%nat; reflexivity.
Qed.

Lemma askChatGPT_success (message raw : gostring) (resp : Response)
  (s : Service) :
  carries resp raw ->
  askChatGPT message (Ok resp) s
  = (Val (Ok (shapeReply raw)),
     setHistory
       (committed (conversationHistory s)
          (mkTurn (str "user") (userContent message))
          (mkTurn (str "assistant") (shapeReply raw))) s,
     [HttpPost (request s message)]).
Proof.
  intros (respData & firstChoice & others & messageMap
          & Hstatus & Hbody & Hchoices & Hmessage & Hcontent).
  unfold askChatGPT. unfold bind at 1 2. unfold get, emit.
  rewrite Hbody, Hstatus. cbn [Z.eqb Pos.eqb negb Unmarshal].
  rewrite Hchoices, Hmessage, Hcontent.
  unfold bind, ret. rewrite updateConversationHistory_eq.
  reflexivity.
Qed.

(** ** The history *)

Lemma flat_map_exchange_length (qs : list (gostring * gostring)) :
  length (flat_map exchange qs) = (2 * length qs)%nat.
Proof. induction qs as [|q qs IH]; cbn; lia. Qed.

Lemma drop_flat_map_exchange (k : nat) (qs : list (gostring * gostring)) :
  drop (2 * k) (flat_map exchange qs) = flat_map exchange (drop k qs).
Proof.
  revert qs. induction k as [|k IH]; intros qs; [done|].
  destruct qs as [|q qs]; [done|].
  replace (2 * S k)%nat with (S (S (2 * k))) by lia. cbn [flat_map drop exchange app].
  apply IH.
Qed.

Lemma committed_exchange (qs : list (gostring * gostring))
  (p : gostring * gostring) :
  (length qs <= 5)%nat ->
  committed (flat_map exchange qs)
    (mkTurn (str "user") (fst p)) (mkTurn (str "assistant") (snd p))
  = flat_map exchange (drop (length (qs ++ [p]) - 5) (qs ++ [p])).
Proof.
  intros Hlen. unfold committed.
  replace ((flat_map exchange qs ++ [mkTurn (str "user") (fst p)])
             ++ [mkTurn (str "assistant") (snd p)])
    with (flat_map exchange (qs ++ [p]))
    by (rewrite flat_map_app; cbn; by rewrite <- app_assoc).
  rewrite flat_map_exchange_length.
  destruct (Nat.ltb_spec 10 (2 * length (qs ++ [p]))) as [Hgt|Hle].
  - replace (2 * length (qs ++ [p]) - 10)%nat
      with (2 * (length (qs ++ [p]) - 5))%nat by lia.
    apply drop_flat_map_exchange.
  - replace (length (qs ++ [p]) - 5)%nat with 0%nat by lia. done.
Qed.

Lemma last_five_app {A} (qs ps : list A) :
  drop (length (drop (length qs - 5) qs ++ ps) - 5)
    (drop (length qs - 5) qs ++ ps)
  = drop (length (qs ++ ps) - 5) (qs ++ ps).
Proof.
  rewrite <- (drop_app_le qs ps) by lia.
  rewrite drop_drop. f_equal.
  rewrite length_drop, !length_app. lia.
Qed.

Lemma commits_exchange (ps qs : list (gostring * gostring)) :
  (length qs <= 5)%nat ->
  fold_left
    (fun h p =>
       committed h (mkTurn (str "user") (fst p))
         (mkTurn (str "assistant") (snd p)))
    ps (flat_map exchange qs)
  = flat_map exchange (drop (length (qs ++ ps) - 5) (qs ++ ps)).
Proof.
  revert qs. induction ps as [|p ps IH]; intros qs Hlen.
  - rewrite app_nil_r. replace (length qs - 5)%nat with 0%nat by lia. done.
  - cbn [fold_left]. rewrite committed_exchange by done.
    rewrite IH.
    + rewrite last_five_app. by rewrite <- app_assoc.
    + rewrite length_drop. lia.
Qed.

Lemma commitAll_eq (pairs : list (gostring * gostring)) (s : Service) :
  commitAll pairs s
  = (Val tt,
     setHistory
       (fold_left
          (fun h p =>
             committed h (mkTurn (str "user") (fst p))
               (mkTurn (str "assistant") (snd p)))
          pairs (conversationHistory s)) s,
     []).
Proof.
  unfold commitAll. revert s.
  induction pairs as [|p pairs IH]; intros s.
  - by destruct s.
  - cbn [forEach fold_left]. rewrite updateConversationHistory_eq, IH.
    by destruct s.
Qed.

(** ** Claims on the reply and on the history *)

(** C1. When the reply text of the completion service, once trimmed, freed
    of commas and with its periods turned into line breaks, has more than
    50 words, [askChatGPT] returns a reply of exactly 50 words, and these
    are the first 50 words of the converted text. *)
Theorem askChatGPT_truncates_to_50_words (message raw : gostring)
  (resp : Response) (s : Service) :
  carries resp raw ->
  (50 < length (strings.Fields (convertPunctuation raw)))%nat ->
  exists reply s' events,
    askChatGPT message (Ok resp) s = (Val (Ok reply), s', events) /\
    length (strings.Fields reply) = 50%nat /\
    strings.Fields reply
    = take 50 (strings.Fields (convertPunctuation raw)).
Proof.
  intros Hresp Hlong. do 3 eexists. split.
  - by apply askChatGPT_success.
  - unfold shapeReply. fold (convertPunctuation raw).
    apply Nat.ltb_lt in Hlong as Hlong'. rewrite Hlong'.
    rewrite Fields_Join.
    + split; [|done]. rewrite length_take. lia.
    + apply Forall_take, Fields_words.
Qed.

Lemma askChatGPT_truncates_to_50_words_witness :
  exists reply s' events,
    askChatGPT (str "hi") (Ok (okResponse longReply))
      (New (str "key") (str "Bot"))
    = (Val (Ok reply), s', events) /\
    length (strings.Fields reply) = 50%nat /\
    strings.Fields reply
    = take 50 (strings.Fields (convertPunctuation longReply)).
Proof.
  apply (askChatGPT_truncates_to_50_words (str "hi") longReply
           (okResponse longReply) (New (str "key") (str "Bot"))).
  - unfold carries, okResponse. do 4 eexists. cbn.
    repeat split; reflexivity.
  - vm_compute. lia.
Defined.

(** C2. Whatever user/assistant pairs are committed, one after the other,
    to a new service: the history is the turns of the last five pairs (or
    of all of them when there are fewer), in order, user before assistant;
    so it never has more than 10 turns, its length is even, and the pairs
    dropped are the oldest.  After six commits it holds the second to the
    sixth pair. *)
Theorem history_holds_last_five_pairs (key bot : gostring) :
  (forall pairs : list (gostring * gostring),
      let h := historyAfter (commitAll pairs) (New key bot) in
      h = flat_map exchange (drop (length pairs - 5) pairs) /\
      (length h <= 10)%nat /\
      Nat.Even (length h)) /\
  (forall p1 p2 p3 p4 p5 p6 : gostring * gostring,
      historyAfter (commitAll [p1; p2; p3; p4; p5; p6]) (New key bot)
      = exchange p2 ++ exchange p3 ++ exchange p4 ++ exchange p5
          ++ exchange p6).
Proof.
  assert (Hall : forall pairs : list (gostring * gostring),
             historyAfter (commitAll pairs) (New key bot)
             = flat_map exchange (drop (length pairs - 5) pairs)).
  { intros pairs. unfold historyAfter. rewrite commitAll_eq. cbn.
    apply (commits_exchange pairs []). cbn. lia. }
  split.
  - intros pairs h. subst h. rewrite Hall. split; [done|].
    rewrite flat_map_exchange_length, length_drop. split; [lia|].
    eexists. reflexivity.
  - intros. rewrite Hall. cbn. reflexivity.
Qed.

(** ** Weakest preconditions *)

Section WP.

Context {A B : Type}.
Implicit Types (s : Service) (Q : Flow A -> Service -> list Event -> Prop).

Lemma wp_eq (m : M A) Q s r s' ev :
  m s = (r, s', ev) -> Q r s' ev -> wp m Q s.
Proof. unfold wp. by intros ->. Qed.

Lemma wp_ret (a : A) Q s : Q (Val a) s [] -> wp (ret a) Q s.
Proof. done. Qed.

Lemma wp_continue Q s : Q Continue s [] -> wp continue Q s.
Proof. done. Qed.

Lemma wp_panic msg Q s : Q (Panic msg) s [] -> wp (panic msg) Q s.
Proof. done. Qed.

Lemma wp_bind (m : M A) (f : A -> M B)
  (Q : Flow B -> Service -> list Event -> Prop) s :
  wp m (wpBind f Q) s -> wp (bind m f) Q s.
Proof.
  unfold wp, wpBind, bind.
  destruct (m s) as [[[a| |msg] s1] ev1]; cbn; [|done|done].
  unfold wp. by destruct (f a s1) as [[r2 s2] ev2].
Qed.

Lemma wp_mono (m : M A) Q Q' s :
  wp m Q s -> (forall r s' ev, Q r s' ev -> Q' r s' ev) -> wp m Q' s.
Proof. unfold wp. auto. Qed.

Lemma wp_any (m : M A) Q s : (forall r s' ev, Q r s' ev) -> wp m Q s.
Proof. unfold wp. auto. Qed.

Lemma wp_orLogContinue (r : result A) (msg : string) Q s :
  match r with
  | Ok a => Q (Val a) s []
  | Err e => Q Continue s [LogError (Some e) msg]
  end ->
  wp (orLogContinue r msg) Q s.
Proof. destruct r; intros H; exact H. Qed.

End WP.

Lemma wp_emit (e : Event) Q s : Q (Val tt) s [e] -> wp (emit e) Q s.
Proof. done. Qed.

Lemma wp_get Q s : Q (Val s) s [] -> wp get Q s.
Proof. done. Qed.

Lemma wp_modify (f : Service -> Service) Q s :
  Q (Val tt) (f s) [] -> wp (modify f) Q s.
Proof. done. Qed.

Lemma wp_match {A} (m : M A) (Q : Flow A -> Service -> list Event -> Prop)
  (s : Service) :
  wp m Q s -> match m s with (r, s', ev) => Q r s' ev end.
Proof. unfold wp. by destruct (m s) as [[r s'] ev]. Qed.

(** One step of symbolic execution. *)
Ltac wp_step :=
  lazymatch goal with
  | |- wp (bind (askChatGPT _ _) _) _ _ => fail
  | |- wp (bind (typeInChat _ _) _) _ _ => fail
  | |- wp (bind (initializeSeenMessages _) _) _ _ => fail
  | |- wp (bind _ _) _ _ => apply wp_bind
  | |- wp (ret _) _ _ => apply wp_ret
  | |- wp (emit _) _ _ => apply wp_emit
  | |- wp get _ _ => apply wp_get
  | |- wp (modify _) _ _ => apply wp_modify
  | |- wp continue _ _ => apply wp_continue
  | |- wp (panic _) _ _ => apply wp_panic
  | |- wp (orLogContinue _ _) _ _ => apply wp_orLogContinue
  | |- wp (if ?b then _ else _) _ _ => destruct b eqn:?
  | |- wp (match ?x with _ => _ end) _ _ => destruct x eqn:?
  | |- wpBind _ _ _ _ _ => unfold wpBind at 1; cbv beta iota
  | |- match ?x with _ => _ end => destruct x eqn:?
  end.

(** ** Outcomes of the completion call *)

Lemma askChatGPT_outcomes (message : gostring) (do : result Response)
  (s : Service) :
  match askChatGPT message do s with
  | (r, s', events) =>
      events = [HttpPost (request s message)] /\
      match r with
      | Val (Ok reply) =>
          s' = setHistory
                 (committed (conversationHistory s)
                    (mkTurn (str "user") (userContent message))
                    (mkTurn (str "assistant") reply)) s
      | Val (Err _) | Panic _ => s' = s
      | Continue => False
      end
  end.
Proof.
  apply (wp_match (askChatGPT message do)
           (fun r s' events =>
              events = [HttpPost (request s message)] /\
              match r with
              | Val (Ok reply) =>
                  s' = setHistory
                         (committed (conversationHistory s)
                            (mkTurn (str "user") (userContent message))
                            (mkTurn (str "assistant") reply)) s
              | Val (Err _) | Panic _ => s' = s
              | Continue => False
              end)).
  unfold askChatGPT, invalidResponseFormat. cbv zeta.
  repeat wp_step; try (split; reflexivity).
  eapply wp_eq; [apply updateConversationHistory_eq|].
  repeat wp_step. split; reflexivity.
Qed.

(** ** Events *)

Lemma completionCalls_app (ev1 ev2 : list Event) :
  completionCalls (ev1 ++ ev2) = completionCalls ev1 ++ completionCalls ev2.
Proof.
  induction ev1 as [|[] ev1 IH]; cbn; auto. by rewrite IH.
Qed.

Lemma injections_app (ev1 ev2 : list Event) :
  injections (ev1 ++ ev2) = injections ev1 ++ injections ev2.
Proof.
  induction ev1 as [|[] ev1 IH]; cbn; auto; by rewrite IH.
Qed.

(** ** The watch loop *)

Section WatchProperties.

Variable foldOrbit : rune -> rune -> bool.

#[local] Arguments seen : simpl never.
#[local] Arguments namesBot : simpl never.
#[local] Arguments strings.TrimSpace : simpl never.
#[local] Arguments stripMentions : simpl never.
#[local] Arguments str : simpl never.

Lemma namesBot_markSeen (name id : gostring) (s : Service) :
  namesBot foldOrbit name (markSeen id s) = namesBot foldOrbit name s.
Proof. reflexivity. Qed.

Lemma isReplyToBot_markSeen (id : gostring) (s : Service)
  (message : ElementHandle) :
  isReplyToBot foldOrbit (markSeen id s) message
  = isReplyToBot foldOrbit s message.
Proof. reflexivity. Qed.

Lemma seen_markSeen (id : gostring) (s : Service) :
  seen (markSeen id s) id = true.
Proof. unfold seen, markSeen. cbn. by rewrite lookup_insert_eq. Qed.

Lemma seen_markSeen_mono (id id' : gostring) (s : Service) :
  seen s id' = true -> seen (markSeen id s) id' = true.
Proof.
  unfold seen, markSeen. cbn. intros H.
  destruct (decide (id = id')) as [->|Hne].
  - by rewrite lookup_insert_eq.
  - by rewrite lookup_insert_ne.
Qed.

Lemma readMessage_seen (entry : Entry) (s : Service) (id : gostring) :
  dataListItemId (message entry) = Ok id ->
  seen s id = true ->
  readMessage foldOrbit entry s = (Continue, s, []).
Proof.
  intros Hid Hseen. unfold readMessage. rewrite Hid. run.
  destruct (decide (id = [])); [done|]. cbn. by rewrite Hseen.
Qed.

Lemma wp_isMentionedLoop (mentions : list MentionElement)
  (Q : Flow bool -> Service -> list Event -> Prop) (s : Service) :
  (forall b ev,
      completionCalls ev = [] -> injections ev = [] -> Q (Val b) s ev) ->
  wp (isMentionedLoop foldOrbit mentions) Q s.
Proof.
  revert Q. induction mentions as [|m mentions IH]; intros Q HQ.
  - apply wp_ret. by apply HQ.
  - cbn [isMentionedLoop]. repeat wp_step; try apply IH; intros;
      apply HQ; cbn; auto.
Qed.

Lemma readMessage_quiet_unless_answerable (entry : Entry) (s : Service) :
  wp (readMessage foldOrbit entry)
    (fun _ s' ev => answerable foldOrbit s (message entry) \/ quiet s s' ev)
    s.
Proof.
  unfold readMessage. cbv zeta. repeat wp_step.
  all: try (right; repeat split; cbn; done).
  all: apply wp_isMentionedLoop; intros isMentioned ev Hcalls Hinj.
  all: repeat wp_step.
  all: try (right; unfold quiet; cbn [app];
            rewrite ?completionCalls_app, ?injections_app, ?Hcalls, ?Hinj;
            repeat split; done).
  all: apply wp_any; intros; left.
  all: rewrite namesBot_markSeen, isReplyToBot_markSeen in *.
  all: unfold answerable; do 7 eexists; repeat split; eauto.
Qed.

(** *** The seen set only grows *)

Lemma keeps_refl (s : Service) : keeps s s.
Proof. by split. Qed.

Lemma keeps_trans (s1 s2 s3 : Service) :
  keeps s1 s2 -> keeps s2 s3 -> keeps s1 s3.
Proof. intros [Hb1 H1] [Hb2 H2]. split; [congruence|auto]. Qed.

Lemma keeps_setHistory (h : list Turn) (s s' : Service) :
  keeps s s' -> keeps s (setHistory h s').
Proof. intros H. exact H. Qed.

Lemma keeps_markSeen (id : gostring) (s : Service) : keeps s (markSeen id s).
Proof. split; [done|]. intros id'. apply seen_markSeen_mono. Qed.

Lemma setHistory_id (s : Service) : setHistory (conversationHistory s) s = s.
Proof. by destruct s. Qed.

Lemma wp_askChatGPT (message : gostring) (do : result Response)
  (Q : Flow (result gostring) -> Service -> list Event -> Prop)
  (s : Service) :
  (forall r h ev, Q r (setHistory h s) ev) ->
  wp (askChatGPT message do) Q s.
Proof.
  intros HQ. unfold askChatGPT, updateConversationHistory,
    invalidResponseFormat. cbv zeta.
  repeat wp_step.
  all: first [ apply HQ | rewrite <- (setHistory_id s); apply HQ ].
Qed.

Lemma wp_typeInChat (response : gostring) (box : result (option TextBox))
  (Q : Flow (option error) -> Service -> list Event -> Prop) (s : Service) :
  (forall r ev, Q r s ev) -> wp (typeInChat response box) Q s.
Proof. intros HQ. unfold typeInChat. repeat wp_step; apply HQ. Qed.

Lemma readMessage_keeps (entry : Entry) (s : Service) :
  wp (readMessage foldOrbit entry) (fun _ s' _ => keeps s s') s.
Proof.
  unfold readMessage. cbv zeta. repeat wp_step.
  all: try apply keeps_refl; try apply keeps_markSeen.
  all: apply wp_isMentionedLoop; intros isMentioned ev _ _.
  all: repeat wp_step; try apply keeps_markSeen.
  apply wp_bind, wp_askChatGPT. intros r h ev'.
  unfold wpBind. destruct r as [r| |msg].
  - repeat wp_step; try apply keeps_setHistory, keeps_markSeen.
    apply wp_bind, wp_typeInChat. intros r' ev''.
    unfold wpBind. destruct r' as [r'| |msg];
      repeat wp_step; apply keeps_setHistory, keeps_markSeen.
  - apply keeps_setHistory, keeps_markSeen.
  - apply keeps_setHistory, keeps_markSeen.
Qed.

Lemma wp_forEach {A} (R : Service -> Service -> Prop) (l : list A)
  (body : A -> M unit) :
  (forall s, R s s) ->
  (forall s1 s2 s3, R s1 s2 -> R s2 s3 -> R s1 s3) ->
  (forall a s, wp (body a) (fun _ s' _ => R s s') s) ->
  forall s, wp (forEach l body) (fun _ s' _ => R s s') s.
Proof.
  intros Hrefl Htrans Hbody. induction l as [|a l IH]; intros s.
  - apply Hrefl.
  - unfold wp. cbn [forEach]. specialize (Hbody a s). unfold wp in Hbody.
    destruct (body a s) as [[r s1] ev1]. cbn in Hbody.
    specialize (IH s1). unfold wp in IH.
    destruct (forEach l body s1) as [[r2 s2] ev2]. cbn in IH.
    destruct r; cbn; eauto.
Qed.

Lemma pollLoop_keeps (ticks : list Tick) (s : Service) :
  wp (pollLoop foldOrbit ticks) (fun _ s' _ => keeps s s') s.
Proof.
  revert s. induction ticks as [|[err|[messages|e]] ticks IH]; intros s;
    cbn [pollLoop]; try apply keeps_refl.
  apply wp_bind.
  eapply wp_mono.
  - apply (wp_forEach keeps); [apply keeps_refl|apply keeps_trans|].
    intros. apply readMessage_keeps.
  - intros r s1 ev1 Hs1. unfold wpBind. destruct r; [|done..].
    eapply wp_mono; [apply IH|]. cbv beta. eauto using keeps_trans.
Qed.

Lemma forEach_drop_seen (before after : list Entry) (entry : Entry)
  (id : gostring) (s : Service) :
  dataListItemId (message entry) = Ok id ->
  seen s id = true ->
  forEach (before ++ entry :: after) (readMessage foldOrbit) s
  = forEach (before ++ after) (readMessage foldOrbit) s.
Proof.
  intros Hid. revert s. induction before as [|b before IH]; intros s Hseen.
  - cbn [app forEach]. rewrite (readMessage_seen _ _ _ Hid Hseen).
    by destruct (forEach after _ s) as [[r s'] ev].
  - cbn [app forEach]. pose proof (readMessage_keeps b s) as Hkeeps.
    unfold wp in Hkeeps.
    destruct (readMessage foldOrbit b s) as [[r s1] ev1]. cbn in Hkeeps.
    destruct Hkeeps as [_ Hkeeps].
    destruct r; try done; by rewrite IH by auto.
Qed.

Lemma pollLoop_seen (ticks : list Tick) (s : Service) (id : gostring) :
  seen s id = true -> seen (snd (fst (pollLoop foldOrbit ticks s))) id = true.
Proof. intros H. by apply (pollLoop_keeps ticks s). Qed.

Lemma readMessage_after_polls (ticks : list Tick) (entry : Entry)
  (s : Service) (id : gostring) :
  dataListItemId (message entry) = Ok id ->
  seen s id = true ->
  readMessage foldOrbit entry (snd (fst (pollLoop foldOrbit ticks s)))
  = (Continue, snd (fst (pollLoop foldOrbit ticks s)), []).
Proof. intros Hid Hseen. apply (readMessage_seen _ _ id); [done|]. by apply pollLoop_seen. Qed.

Lemma readMessage_marks (entry : Entry) (s : Service) (id : gostring) :
  dataListItemId (message entry) = Ok id ->
  id <> [] ->
  wp (readMessage foldOrbit entry) (fun _ s' _ => seen s' id = true) s.
Proof.
  intros Hid Hne. unfold readMessage. cbv zeta. repeat wp_step.
  all: simplify_eq; try done; try exact (seen_markSeen _ _).
  all: apply wp_isMentionedLoop; intros isMentioned ev _ _.
  all: repeat wp_step; try exact (seen_markSeen _ _).
  apply wp_bind, wp_askChatGPT. intros r h ev'.
  unfold wpBind. destruct r as [r| |msg]; try exact (seen_markSeen _ _).
  repeat wp_step; try exact (seen_markSeen _ _).
  apply wp_bind, wp_typeInChat. intros r' ev''.
  unfold wpBind. destruct r' as [r'| |msg];
    repeat wp_step; exact (seen_markSeen _ _).
Qed.

Lemma answerable_extraction (s : Service) (message : ElementHandle) :
  answerable foldOrbit s message -> extractionFails message -> False.
Proof.
  intros (id & usernameEl & author & isReply & mentions & contentEl & text
          & _ & _ & _ & Hel & Hauthor & _ & _ & Hmentions & Hcel & Htext).
  unfold extractionFails, unreadable.
  rewrite Hel, Hauthor, Hmentions, Hcel, Htext.
  intros [[]|[[e [=]]|[]]].
Qed.

(** *** Names *)

Lemma equalFoldRune_ascii (sr tr : rune) :
  sr < 128 -> tr < 128 ->
  strings.equalFoldRune foldOrbit sr tr = true
  <-> toLowerASCII sr = toLowerASCII tr.
Proof.
  intros Hs Ht. unfold strings.equalFoldRune, toLowerASCII, utf8.RuneSelf.
  destruct (N.eqb_spec tr sr) as [->|Hne]; [done|].
  destruct (N.ltb_spec tr sr); cbv beta iota.
  all: repeat match goal with
         | |- context [?a <? ?b] => destruct (N.ltb_spec a b)
         | |- context [?a <=? ?b] => destruct (N.leb_spec a b)
         | |- context [?a =? ?b] => destruct (N.eqb_spec a b)
         end; cbn; split; intros; try done; lia.
Qed.

Lemma EqualFold_ascii (s t : gostring) :
  isASCII s -> isASCII t ->
  strings.EqualFold foldOrbit s t = true
  <-> map toLowerASCII s = map toLowerASCII t.
Proof.
  unfold isASCII. revert t. induction s as [|sr s IH]; intros [|tr t] Hs Ht;
    cbn [strings.EqualFold map]; try done.
  inversion Hs; inversion Ht; subst.
  rewrite andb_true_iff, equalFoldRune_ascii, IH by done.
  split; [intros [-> ->]; done|intros [= -> ->]; done].
Qed.

Lemma isMentionedLoop_eq (mentions : list MentionElement) (s : Service) :
  exists events,
    isMentionedLoop foldOrbit mentions s
    = (Val (existsb (mentionsBot foldOrbit s) mentions), s, events).
Proof.
  induction mentions as [|m mentions [events IH]]; [by eexists|].
  cbn [isMentionedLoop existsb]. unfold mentionsBot at 1.
  destruct (mentionInnerText m) as [text|e].
  - unfold bind, get. fold (namesBot foldOrbit text s).
    destruct (namesBot foldOrbit text s); [by eexists|].
    rewrite IH. by eexists.
  - unfold bind, emit. rewrite IH. by eexists.
Qed.

(** *** The initialization pass *)

Lemma wp_initializeSeenMessages (messages : list ElementHandle)
  (s : Service) :
  wp (initializeSeenMessages (Ok messages))
    (fun r s' ev =>
       r = Val None /\ quiet s s' ev /\ keeps s s' /\ allSeen s' messages)
    s.
Proof.
  unfold initializeSeenMessages.
  match goal with
  | |- context [forEach messages ?b] => set (body := b)
  end.
  assert (Hloop : forall s0,
             wp (forEach messages body)
               (fun r s' ev =>
                  r = Val tt /\ quiet s0 s' ev /\ keeps s0 s' /\
                  allSeen s' messages) s0).
  { unfold wp. induction messages as [|m messages IH]; intros s0.
    - cbn. split; [done|]. split; [by repeat split|].
      split; [apply keeps_refl|constructor].
    - cbn [forEach].
      assert (Hbody : exists s1 r1 ev1,
                 body m s0 = (r1, s1, ev1) /\
                 (r1 = Val tt \/ r1 = Continue) /\
                 quiet s0 s1 ev1 /\ keeps s0 s1 /\
                 match dataListItemId m with
                 | Ok id => id = [] \/ seen s1 id = true
                 | Err _ => True
                 end).
      { subst body. cbv beta. destruct (dataListItemId m) as [id|e].
        - run. destruct (decide (id = [])).
          + exists s0. do 2 eexists. split; [reflexivity|].
            split; [by right|]. split; [by repeat split|].
            split; [apply keeps_refl|by left].
          + exists (markSeen id s0). do 2 eexists. split; [reflexivity|].
            split; [by left|]. split; [by repeat split|].
            split; [apply keeps_markSeen|right; apply seen_markSeen].
        - run. exists s0. do 2 eexists. split; [reflexivity|].
          split; [by right|]. split; [by repeat split|].
          split; [apply keeps_refl|done]. }
      destruct Hbody as (s1 & r1 & ev1 & -> & Hr1 & Hq1 & Hk1 & Hm).
      specialize (IH s1).
      destruct (forEach messages body s1) as [[r s'] ev]. cbn in IH.
      destruct IH as (-> & Hq & Hk & Hall).
      destruct Hq1 as (Hc1 & Hi1 & Hh1), Hq as (Hc & Hi & Hh).
      assert (Hres : (Val tt, s', ev1 ++ ev)
                     = match r1 with
                       | Panic msg => (Panic msg, s1, ev1)
                       | _ => (Val tt, s', ev1 ++ ev)
                       end) by (by destruct Hr1 as [->| ->]).
      rewrite <- Hres. cbn. split; [done|]. split; [|split].
      + split; [|split].
        * by rewrite completionCalls_app, Hc1, Hc.
        * by rewrite injections_app, Hi1, Hi.
        * congruence.
      + by apply (keeps_trans _ s1).
      + constructor; [|done].
        destruct (dataListItemId m); [|done].
        destruct Hm as [Hm|Hm]; [by left|right]. by apply Hk. }
  apply wp_bind. eapply wp_mono; [apply Hloop|].
  intros r s' ev (-> & Hq & Hk & Hall). unfold wpBind. apply wp_ret.
  rewrite app_nil_r. done.
Qed.

Lemma isMentionedLoop_single (text : gostring) (s : Service) :
  isMentionedLoop foldOrbit [mentionOf text] s
  = (Val (strings.EqualFold foldOrbit
            (strings.TrimPrefix (strings.TrimSpace text) (str "@"))
            (botUsername s)), s, []).
Proof.
  cbn. unfold bind, get, ret, namesBot.
  by destruct (strings.EqualFold _ _ _).
Qed.

(** Equations between answers of sample elements. *)
Ltac tidy :=
  repeat match goal with
         | H : _ = _ |- _ =>
             progress cbn [InnerText textOf boxClick boxType boxPress] in H;
             simplify_eq
         end.

(** *** Claims on the watch loop *)

(** C4. A message whose author's name, once trimmed of white space and of
    one leading [@], equals the bot's name up to case, is skipped, whatever
    its mentions and its reply target are: the loop goes on to the next
    message, nothing is asked of the completion endpoint, nothing is typed
    into the chat, and the history stays as it is. *)
Theorem own_message_is_skipped (entry : Entry) (s : Service)
  (usernameEl : TextElement) (author : gostring) :
  usernameElement (message entry) = Ok (Some usernameEl) ->
  InnerText usernameEl = Ok author ->
  strings.EqualFold foldOrbit
    (strings.TrimPrefix (strings.TrimSpace author) (str "@"))
    (botUsername s) = true ->
  match readMessage foldOrbit entry s with
  | (r, s', events) =>
      r = Continue /\
      completionCalls events = [] /\
      injections events = [] /\
      conversationHistory s' = conversationHistory s
  end.
Proof.
  intros Hel Hauthor Hbot.
  apply (wp_match (readMessage foldOrbit entry)
           (fun r s' ev => r = Continue /\ quiet s s' ev)).
  unfold readMessage. cbv zeta. repeat wp_step.
  all: try (split; [done|repeat split; done]).
  all: simplify_eq.
  all: rewrite namesBot_markSeen in *; unfold namesBot in *; congruence.
Qed.

(** C7. Once an id is in the seen set, a message with this id is passed
    over, whatever its content has become: nothing is logged, asked or
    typed and the state is left as it is.  The seen set only grows while
    the loop runs, so this holds after any number of later polls, and the
    message can be taken out of a poll without changing its outcome. *)
Theorem seen_id_is_passed_over (entry : Entry) (s : Service)
  (id : gostring) :
  dataListItemId (message entry) = Ok id ->
  seen s id = true ->
  readMessage foldOrbit entry s = (Continue, s, []) /\
  (forall ticks id',
      seen s id' = true ->
      seen (snd (fst (pollLoop foldOrbit ticks s))) id' = true) /\
  (forall ticks,
      let s' := snd (fst (pollLoop foldOrbit ticks s)) in
      readMessage foldOrbit entry s' = (Continue, s', [])) /\
  (forall before after,
      forEach (before ++ entry :: after) (readMessage foldOrbit) s
      = forEach (before ++ after) (readMessage foldOrbit) s).
Proof.
  intros Hid Hseen. repeat split.
  - by apply (readMessage_seen _ _ id).
  - intros ticks id'. apply pollLoop_seen.
  - intros ticks. by apply (readMessage_after_polls _ _ _ id).
  - intros before after. by apply (forEach_drop_seen _ _ _ id).
Qed.

(** C9, as the code has it.  The id of a new message goes into the seen
    set before its author, mentions and content are read.  So when the
    author, the list of mentions or the content cannot be read, the message
    is used up: its id is in the seen set, nothing was asked of the
    completion endpoint or typed into the chat for it, and after any
    number of later polls a message with this id is passed over.  (A
    mention whose text cannot be read is only left out of the mention
    check.) *)
Theorem unreadable_message_is_used_up (entry : Entry) (s : Service)
  (id : gostring) :
  dataListItemId (message entry) = Ok id ->
  id <> [] ->
  seen s id = false ->
  extractionFails (message entry) ->
  match readMessage foldOrbit entry s with
  | (r, s', events) =>
      seen s' id = true /\
      completionCalls events = [] /\
      injections events = [] /\
      conversationHistory s' = conversationHistory s /\
      forall ticks entry',
        dataListItemId (message entry') = Ok id ->
        let s'' := snd (fst (pollLoop foldOrbit ticks s')) in
        readMessage foldOrbit entry' s'' = (Continue, s'', [])
  end.
Proof.
  intros Hid Hne Hnew Hfails.
  pose proof (readMessage_marks entry s id Hid Hne) as Hmarks.
  pose proof (readMessage_quiet_unless_answerable entry s) as Hquiet.
  unfold wp in Hmarks, Hquiet.
  destruct (readMessage foldOrbit entry s) as [[r s'] events].
  cbn in Hmarks, Hquiet.
  destruct Hquiet as [Hanswerable|(Hcalls & Hinj & Hhistory)].
  { destruct (answerable_extraction _ _ Hanswerable Hfails). }
  repeat split; try done.
  intros ticks entry' Hid'. by apply (readMessage_after_polls _ _ _ id).
Qed.

Lemma readMessage_reply_error (entry : Entry) (s : Service)
  (id : gostring) (usernameEl : TextElement) (author : gostring)
  (e : error) :
  dataListItemId (message entry) = Ok id ->
  id <> [] ->
  seen s id = false ->
  usernameElement (message entry) = Ok (Some usernameEl) ->
  InnerText usernameEl = Ok author ->
  namesBot foldOrbit author s = false ->
  isReplyToBot foldOrbit s (message entry) = Err e ->
  readMessage foldOrbit entry s
  = (Continue, markSeen id s,
     [LogError (Some e) "Failed to check if message is a reply to bot"]).
Proof.
  intros Hid Hne Hnew Hel Hauthor Hother Hreply.
  unfold readMessage. rewrite Hid. run.
  destruct (decide (id = [])); [done|]. cbn. rewrite Hnew. cbn.
  rewrite Hel. cbn. rewrite Hauthor. cbn.
  rewrite namesBot_markSeen, Hother, isReplyToBot_markSeen, Hreply.
  reflexivity.
Qed.

(** C10. The reply target is checked before the mentions are read.  For
    a message on which the check fails, nothing is asked of the completion
    endpoint and nothing is typed into the chat, whatever the mentions
    are.  When the message is new and of another author, so that the check
    is reached, it is skipped with the one log record of the failure: the
    mentions are not read at all, its id is in the seen set, and after any
    number of later polls a message with this id is passed over. *)
Theorem reply_check_error_skips_message (entry : Entry) (s : Service)
  (e : error) :
  isReplyToBot foldOrbit s (message entry) = Err e ->
  match readMessage foldOrbit entry s with
  | (r, s', events) =>
      completionCalls events = [] /\
      injections events = [] /\
      conversationHistory s' = conversationHistory s /\
      forall id usernameEl author,
        dataListItemId (message entry) = Ok id ->
        id <> [] ->
        seen s id = false ->
        usernameElement (message entry) = Ok (Some usernameEl) ->
        InnerText usernameEl = Ok author ->
        namesBot foldOrbit author s = false ->
        r = Continue /\
        s' = markSeen id s /\
        events
        = [LogError (Some e) "Failed to check if message is a reply to bot"]
        /\
        forall ticks entry',
          dataListItemId (message entry') = Ok id ->
          let s'' := snd (fst (pollLoop foldOrbit ticks s')) in
          readMessage foldOrbit entry' s'' = (Continue, s'', [])
  end.
Proof.
  intros Hreply.
  pose proof (readMessage_quiet_unless_answerable entry s) as Hquiet.
  pose proof (fun id usernameEl author H1 H2 H3 H4 H5 H6 =>
                readMessage_reply_error entry s id usernameEl author e
                  H1 H2 H3 H4 H5 H6 Hreply) as Heq.
  unfold wp in Hquiet.
  destruct (readMessage foldOrbit entry s) as [[r s'] events].
  cbn in Hquiet.
  destruct Hquiet as [Hanswerable|(Hcalls & Hinj & Hhistory)].
  { destruct Hanswerable as (? & ? & ? & ? & ? & ? & ? & _ & _ & _ & _ & _
                             & _ & Hok & _). congruence. }
  split_and!; try done.
  intros id usernameEl author H1 H2 H3 H4 H5 H6.
  specialize (Heq id usernameEl author H1 H2 H3 H4 H5 H6).
  injection Heq as -> -> ->. split_and!; try done.
  intros ticks entry' Hid'. apply (readMessage_after_polls _ _ _ id); [done|].
  apply seen_markSeen.
Qed.

(** C5. The mention check finds the bot exactly when the text of one of
    the mentions, once trimmed of white space and of one leading [@],
    equals the bot's name up to case; for a single mention the check is
    this comparison.  On ASCII names the comparison is equality of the
    lower-cased names.  The mentions [@Foo], [foo] and [FOO] all match the
    bot [Foo]. *)
Theorem mention_check_matches_bot_name :
  (forall (mentions : list MentionElement) (s : Service),
      exists (isMentioned : bool) (events : list Event),
        isMentionedLoop foldOrbit mentions s = (Val isMentioned, s, events) /\
        (isMentioned = true <->
         exists mention text,
           In mention mentions /\
           mentionInnerText mention = Ok text /\
           strings.EqualFold foldOrbit
             (strings.TrimPrefix (strings.TrimSpace text) (str "@"))
             (botUsername s) = true)) /\
  (forall (text : gostring) (s : Service),
      isMentionedLoop foldOrbit [mentionOf text] s
      = (Val (strings.EqualFold foldOrbit
                (strings.TrimPrefix (strings.TrimSpace text) (str "@"))
                (botUsername s)), s, [])) /\
  (forall name bot : gostring,
      isASCII name -> isASCII bot ->
      strings.EqualFold foldOrbit name bot = true
      <-> map toLowerASCII name = map toLowerASCII bot) /\
  (forall key : gostring,
      Forall (fun text =>
                isMentionedLoop foldOrbit [mentionOf text]
                  (New key (str "Foo"))
                = (Val true, New key (str "Foo"), []))
        [str "@Foo"; str "foo"; str "FOO"]).
Proof.
  split; [|split; [|split]].
  - intros mentions s.
    destruct (isMentionedLoop_eq mentions s) as [events Heq].
    exists (existsb (mentionsBot foldOrbit s) mentions), events.
    split; [done|]. rewrite existsb_exists. unfold mentionsBot.
    split.
    + intros (m & Hin & Hm). destruct (mentionInnerText m) as [text|e] eqn:Ht;
        [|done]. by exists m, text.
    + intros (m & text & Hin & Ht & Hm). exists m. by rewrite Ht.
  - apply isMentionedLoop_single.
  - apply EqualFold_ascii.
  - intros key. repeat constructor.
Qed.

(** C8. At the start of a session, before the first poll, the id of every
    message on the page that can be read and is not empty is in the seen
    set, and nothing was asked of the completion endpoint or typed into
    the chat; the session is then in its polling loop.  With three
    messages on the page, all addressed to the bot, their three ids are in
    the seen set and no completion call was made. *)
Theorem initial_pass_marks_all_and_answers_none :
  (forall (messages : list ElementHandle) (s : Service),
      match ReadMessages foldOrbit (Ok messages) [] s with
      | (r, s', events) =>
          r = Val Polling /\
          allSeen s' messages /\
          completionCalls events = [] /\
          injections events = [] /\
          conversationHistory s' = conversationHistory s
      end) /\
  (forall key : gostring,
      match
        ReadMessages foldOrbit
          (Ok [messageOf (str "m1") (str "ann") [str "@Bot"] (str "@Bot hi");
               messageOf (str "m2") (str "bob") [str "@Bot"] (str "@Bot yo");
               messageOf (str "m3") (str "cy") [str "@Bot"] (str "@Bot ?")])
          [] (New key (str "Bot"))
      with
      | (_, s', events) =>
          seen s' (str "m1") = true /\
          seen s' (str "m2") = true /\
          seen s' (str "m3") = true /\
          completionCalls events = []
      end).
Proof.
  assert (Hgen : forall (messages : list ElementHandle) (s : Service),
             match ReadMessages foldOrbit (Ok messages) [] s with
             | (r, s', events) =>
                 r = Val Polling /\
                 allSeen s' messages /\
                 completionCalls events = [] /\
                 injections events = [] /\
                 conversationHistory s' = conversationHistory s
             end).
  { intros messages s.
    apply (wp_match (ReadMessages foldOrbit (Ok messages) [])
             (fun r s' events =>
                r = Val Polling /\ allSeen s' messages /\ quiet s s' events)).
    unfold ReadMessages. repeat wp_step. apply wp_bind.
    eapply wp_mono; [apply wp_initializeSeenMessages|].
    intros r s' ev (-> & (Hc & Hi & Hh) & _ & Hall).
    repeat wp_step. cbn [app pollLoop]. apply wp_ret.
    split; [done|]. split; [done|].
    unfold quiet. cbn. by rewrite completionCalls_app, injections_app, Hc, Hi. }
  split; [done|].
  intros key.
  match goal with
  | |- match ReadMessages _ (Ok ?ms) _ ?s0 with _ => _ end =>
      pose proof (Hgen ms s0) as H;
      destruct (ReadMessages foldOrbit (Ok ms) [] s0) as [[r s'] events]
  end.
  destruct H as (_ & Hall & Hc & _ & _).
  inversion Hall as [|? ? H1 Hall']; subst.
  inversion Hall' as [|? ? H2 Hall'']; subst.
  inversion Hall'' as [|? ? H3 _]; subst.
  cbn in H1, H2, H3.
  split_and!; [by destruct H1|by destruct H2|by destruct H3|done].
Qed.

(** C3, as the code has it.  A new message with id [m1], one mention with
    the text [Bot] and the content [@Bot hello.], written by somebody else
    to the bot [Bot]: exactly one request goes to the completion endpoint,
    and its last turn is the user turn with content [@ hello] followed by a
    line break (the text [Bot] cut out, the white space around trimmed, the
    period turned into a line break).  When the endpoint answers with a
    well-formed reply, the reply is typed into the chat once: one click,
    one text, one [Enter]. *)
Theorem mention_scenario_calls_once (s : Service) (author : gostring)
  (do : result Response) :
  botUsername s = str "Bot" ->
  seen s (str "m1") = false ->
  namesBot foldOrbit author s = false ->
  match readMessage foldOrbit (entryOf (mentionMessage author) do) s with
  | (r, s', events) =>
      completionCalls events
      = [[mkTurn (str "system") systemPrompt]
           ++ conversationHistory s
           ++ [mkTurn (str "user") (str "@ hello" ++ newline)]] /\
      forall resp raw,
        do = Ok resp -> carries resp raw ->
        injections events
        = [Click; TypeText (shapeReply raw); Press "Enter"]
  end.
Proof.
  intros Hbot Hnew Hother.
  apply (wp_match (readMessage foldOrbit (entryOf (mentionMessage author) do))
           (fun r s' events =>
              completionCalls events
              = [[mkTurn (str "system") systemPrompt]
                   ++ conversationHistory s
                   ++ [mkTurn (str "user") (str "@ hello" ++ newline)]] /\
              forall resp raw,
                do = Ok resp -> carries resp raw ->
                injections events
                = [Click; TypeText (shapeReply raw); Press "Enter"])).
  unfold readMessage, entryOf, mentionMessage, messageOf. cbv zeta.
  cbn [message dataListItemId usernameElement innerHTML replyContext
         mentionElements contentElement completion textbox textOf InnerText].
  repeat wp_step.
  all: try match goal with
           | H : str "m1" = [] |- _ => vm_compute in H; discriminate
           | H : _ = Err _ |- _ => cbn in H; discriminate
           end.
  all: try congruence.
  all: tidy.
  all: try (rewrite namesBot_markSeen in *; congruence).
  match goal with
  | H : isReplyToBot _ _ _ = Ok ?b |- _ =>
      assert (Hreply : b = false) by (cbn in H; congruence); subst b
  end.
  cbn [map]. eapply wp_eq; [apply isMentionedLoop_single|].
  unfold wpBind. cbn [botUsername markSeen]. rewrite Hbot.
  change (strings.EqualFold foldOrbit _ (str "Bot")) with true.
  cbn [orb]. repeat wp_step; tidy. apply wp_bind.
  match goal with
  | |- wp (askChatGPT ?m _) _ ?st =>
      pose proof (askChatGPT_outcomes m do st) as Hout;
      pose proof (fun resp raw => askChatGPT_success m raw resp st) as Hok;
      unfold wp; destruct (askChatGPT m do st) as [[r s1] ev1] eqn:Hask
  end.
  destruct Hout as [-> Hr]. cbn [fst snd]. unfold wpBind.
  assert (Hrequest :
            request (markSeen (str "m1") s)
              (strings.TrimSpace
                 (stripMentions (strings.TrimSpace (str "@Bot hello."))
                    [mentionOf (str "Bot")]))
            = [mkTurn (str "system") systemPrompt]
                ++ conversationHistory s
                ++ [mkTurn (str "user") (str "@ hello" ++ newline)])
    by reflexivity.
  destruct r as [[reply|e]| |msg]; [| |done|].
  - unfold typeInChat, workingBox. repeat wp_step; tidy. rewrite Hrequest. cbn.
    split; [done|]. intros resp raw -> Hcarries.
    rewrite (Hok resp raw Hcarries) in Hask. by simplify_eq.
  - repeat wp_step. rewrite Hrequest. cbn.
    split; [done|]. intros resp raw -> Hcarries.
    rewrite (Hok resp raw Hcarries) in Hask. by simplify_eq.
  - rewrite Hrequest. cbn.
    split; [done|]. intros resp raw -> Hcarries.
    rewrite (Hok resp raw Hcarries) in Hask. by simplify_eq.
Qed.

End WatchProperties.

(** ** The claims at sample inputs *)

(** C3 as the specification words it fails: in the mention scenario the
    user turn of the one request is not [hello]. *)
Lemma mention_scenario_user_turn_is_not_hello :
  ~ (exists request,
        completionCalls
          (snd (readMessage asciiFold
                  (entryOf (mentionMessage (str "ann"))
                     (Ok (okResponse (str "Hi"))))
                  (New (str "key") (str "Bot"))))
        = [request] /\
        last request = Some (mkTurn (str "user") (str "hello"))).
Proof.
  intros (request & Hcalls & Hlast).
  vm_compute in Hcalls. injection Hcalls as <-.
  vm_compute in Hlast. discriminate.
Qed.

Lemma mention_scenario_calls_once_witness :
  match
    readMessage asciiFold
      (entryOf (mentionMessage (str "ann")) (Ok (okResponse (str "Hi"))))
      (New (str "key") (str "Bot"))
  with
  | (r, s', events) =>
      completionCalls events
      = [[mkTurn (str "system") systemPrompt]
           ++ conversationHistory (New (str "key") (str "Bot"))
           ++ [mkTurn (str "user") (str "@ hello" ++ newline)]] /\
      forall resp raw,
        Ok (okResponse (str "Hi")) = Ok resp -> carries resp raw ->
        injections events
        = [Click; TypeText (shapeReply raw); Press "Enter"]
  end.
Proof.
  apply (mention_scenario_calls_once asciiFold (New (str "key") (str "Bot"))
           (str "ann") (Ok (okResponse (str "Hi")))); reflexivity.
Defined.

Lemma own_message_is_skipped_witness :
  match
    readMessage asciiFold
      (entryOf
         (messageOf (str "m2") (str " @bot ") [str "@Bot"] (str "@Bot hi"))
         (Ok (okResponse (str "Hi"))))
      (New (str "key") (str "Bot"))
  with
  | (r, s', events) =>
      r = Continue /\
      completionCalls events = [] /\
      injections events = [] /\
      conversationHistory s' = conversationHistory (New (str "key") (str "Bot"))
  end.
Proof.
  apply (own_message_is_skipped asciiFold
           (entryOf
              (messageOf (str "m2") (str " @bot ") [str "@Bot"]
                 (str "@Bot hi"))
              (Ok (okResponse (str "Hi"))))
           (New (str "key") (str "Bot"))
           (textOf (str " @bot ")) (str " @bot ")); reflexivity.
Defined.

Lemma seen_id_is_passed_over_witness :
  let s := markSeen (str "m1") (New (str "key") (str "Bot")) in
  let entry :=
    entryOf (mentionMessage (str "ann")) (Ok (okResponse (str "Hi"))) in
  readMessage asciiFold entry s = (Continue, s, []) /\
  (forall ticks id',
      seen s id' = true ->
      seen (snd (fst (pollLoop asciiFold ticks s))) id' = true) /\
  (forall ticks,
      let s' := snd (fst (pollLoop asciiFold ticks s)) in
      readMessage asciiFold entry s' = (Continue, s', [])) /\
  (forall before after,
      forEach (before ++ entry :: after) (readMessage asciiFold) s
      = forEach (before ++ after) (readMessage asciiFold) s).
Proof.
  apply (seen_id_is_passed_over asciiFold
           (entryOf (mentionMessage (str "ann")) (Ok (okResponse (str "Hi"))))
           (markSeen (str "m1") (New (str "key") (str "Bot")))
           (str "m1")); reflexivity.
Defined.

(** A new message, addressed to the bot, whose author cannot be found on
    the page. *)
Lemma unreadable_message_is_used_up_witness :
  let entry :=
    {| message :=
         {| dataListItemId := Ok (str "m9");
            usernameElement := Ok None;
            innerHTML := Ok (str "<div></div>");
            replyContext := Ok None;
            mentionElements := Ok [mentionOf (str "@Bot")];
            contentElement := Ok (Some (textOf (str "@Bot hi"))) |};
       completion := Ok (okResponse (str "Hi"));
       textbox := workingBox |} in
  match readMessage asciiFold entry (New (str "key") (str "Bot")) with
  | (r, s', events) =>
      seen s' (str "m9") = true /\
      completionCalls events = [] /\
      injections events = [] /\
      conversationHistory s'
      = conversationHistory (New (str "key") (str "Bot")) /\
      forall ticks entry',
        dataListItemId (message entry') = Ok (str "m9") ->
        let s'' := snd (fst (pollLoop asciiFold ticks s')) in
        readMessage asciiFold entry' s'' = (Continue, s'', [])
  end.
Proof.
  cbv zeta.
  apply (unreadable_message_is_used_up asciiFold
           {| message :=
                {| dataListItemId := Ok (str "m9");
                   usernameElement := Ok None;
                   innerHTML := Ok (str "<div></div>");
                   replyContext := Ok None;
                   mentionElements := Ok [mentionOf (str "@Bot")];
                   contentElement := Ok (Some (textOf (str "@Bot hi"))) |};
              completion := Ok (okResponse (str "Hi"));
              textbox := workingBox |}
           (New (str "key") (str "Bot")) (str "m9")).
  - reflexivity.
  - vm_compute. discriminate.
  - reflexivity.
  - left. exact I.
Defined.

(** A new message that mentions the bot, on which the query for the reply
    context fails. *)
Lemma reply_check_error_skips_message_witness :
  let s := New (str "key") (str "Bot") in
  let e := wrapError "failed to get reply context" (errorString "timeout") in
  let entry :=
    {| message :=
         {| dataListItemId := Ok (str "m10");
            usernameElement := Ok (Some (textOf (str "ann")));
            innerHTML := Ok [];
            replyContext := Err (errorString "timeout");
            mentionElements := Ok [mentionOf (str "@Bot")];
            contentElement := Ok (Some (textOf (str "@Bot hi"))) |};
       completion := Ok (okResponse (str "Hi"));
       textbox := workingBox |} in
  match readMessage asciiFold entry s with
  | (r, s', events) =>
      completionCalls events = [] /\
      injections events = [] /\
      conversationHistory s' = conversationHistory s /\
      forall id usernameEl author,
        dataListItemId (message entry) = Ok id ->
        id <> [] ->
        seen s id = false ->
        usernameElement (message entry) = Ok (Some usernameEl) ->
        InnerText usernameEl = Ok author ->
        namesBot asciiFold author s = false ->
        r = Continue /\
        s' = markSeen id s /\
        events
        = [LogError (Some e) "Failed to check if message is a reply to bot"]
        /\
        forall ticks entry',
          dataListItemId (message entry') = Ok id ->
          let s'' := snd (fst (pollLoop asciiFold ticks s')) in
          readMessage asciiFold entry' s'' = (Continue, s'', [])
  end.
Proof.
  cbv zeta.
  apply (reply_check_error_skips_message asciiFold
           {| message :=
                {| dataListItemId := Ok (str "m10");
                   usernameElement := Ok (Some (textOf (str "ann")));
                   innerHTML := Ok [];
                   replyContext := Err (errorString "timeout");
                   mentionElements := Ok [mentionOf (str "@Bot")];
                   contentElement := Ok (Some (textOf (str "@Bot hi"))) |};
              completion := Ok (okResponse (str "Hi"));
              textbox := workingBox |}
           (New (str "key") (str "Bot"))
           (wrapError "failed to get reply context" (errorString "timeout"))).
  reflexivity.
Defined.

(** C9 as the specification words it fails: the id of a new message was
    read, then the text of its first mention could not be read, and the
    message is answered all the same, on its second mention. *)
Lemma unread_mention_text_is_still_answered :
  let entry :=
    {| message :=
         {| dataListItemId := Ok (str "m9");
            usernameElement := Ok (Some (textOf (str "ann")));
            innerHTML := Ok [];
            replyContext := Ok None;
            mentionElements :=
              Ok [{| mentionInnerText := Err (errorString "timeout");
                     mentionInnerTextAgain := Err (errorString "timeout") |};
                  mentionOf (str "@Bot")];
            contentElement := Ok (Some (textOf (str "@Bot hi"))) |};
       completion := Ok (okResponse (str "Hi"));
       textbox := workingBox |} in
  let events :=
    snd (readMessage asciiFold entry (New (str "key") (str "Bot"))) in
  In (LogError (Some (errorString "timeout")) "Failed to get mention text")
    events /\
  length (completionCalls events) = 1%nat /\
  injections events = [Click; TypeText (str "Hi"); Press "Enter"].
Proof.
  cbv zeta. vm_compute. split_and!; [|reflexivity|reflexivity].
  left. reflexivity.
Qed.

(** C6 at a response the code mishandles.  The endpoint answers with
    status 200 and the body [{"choices":[null]}] written as JSON, which has
    no [choices[0].message.content].  [askChatGPT] does not return an
    error: the unchecked type assertion on [choices[0]] panics.  The
    history is untouched, but the panic leaves the loop over the messages,
    so the next message of the poll is never looked at. *)
Theorem askChatGPT_panics_on_null_choice :
  (forall (message : gostring) (s : Service),
      askChatGPT message (Ok nullChoiceResponse) s
      = (Panic "interface conversion: interface {} is not map[string]interface {}",
         s, [HttpPost (request s message)])) /\
  (forall (foldOrbit : rune -> rune -> bool) (key : gostring),
      match
        pollLoop foldOrbit
          [Poll (Ok [entryOf (mentionMessage (str "ann"))
                       (Ok nullChoiceResponse);
                     entryOf
                       (messageOf (str "m2") (str "bob") [str "Bot"]
                          (str "Bot hi"))
                       (Ok (okResponse (str "Hi")))])]
          (New key (str "Bot"))
      with
      | (r, s', events) =>
          r = Panic "interface conversion: interface {} is not map[string]interface {}" /\
          seen s' (str "m2") = false /\
          length (completionCalls events) = 1%nat /\
          injections events = []
      end).
Proof.
  split.
  - intros message s. reflexivity.
  - intros foldOrbit key. vm_compute. repeat split.
Qed.

(** * Further properties of the completion call *)

#[local] Arguments seen : simpl never.
#[local] Arguments namesBot : simpl never.
#[local] Arguments strings.TrimSpace : simpl never.
#[local] Arguments stripMentions : simpl never.
#[local] Arguments str : simpl never.

Lemma Unmarshal_Ok (body : option JSON) (respData : list (gostring * JSON)) :
  Unmarshal body = Ok respData ->
  body = Some (JObject respData) \/ (body = Some JNull /\ respData = []).
Proof. destruct body as [[]|]; cbn; intros; simplify_eq; auto. Qed.

Lemma askChatGPT_cases (message : gostring) (do : result Response)
  (s : Service) :
  wp (askChatGPT message do)
    (fun r s' events =>
       events = [HttpPost (request s message)] /\
       match r with
       | Val (Ok reply) =>
           exists resp raw,
             do = Ok resp /\ carries resp raw /\ ~ malformedChoice resp /\
             reply = shapeReply raw /\
             s' = setHistory
                    (committed (conversationHistory s)
                       (mkTurn (str "user") (userContent message))
                       (mkTurn (str "assistant") reply)) s
       | Val (Err _) =>
           s' = s /\
           forall resp, do = Ok resp ->
             ~ malformedChoice resp /\ forall raw, ~ carries resp raw
       | Panic _ =>
           s' = s /\
           exists resp, do = Ok resp /\ malformedChoice resp /\
             forall raw, ~ carries resp raw
       | Continue => False
       end) s.
Proof.
  unfold askChatGPT, invalidResponseFormat. cbv zeta.
  repeat wp_step.
  all: try (eapply wp_eq; [apply updateConversationHistory_eq|]; repeat wp_step).
  all: split; [reflexivity|].
  all: try match goal with
           | H : negb (StatusCode _ =? 200)%Z = _ |- _ =>
               first [apply negb_true_iff, Z.eqb_neq in H
                     |apply negb_false_iff, Z.eqb_eq in H]
           end.
  all: try match goal with
           | H : Unmarshal _ = Ok _ |- _ =>
               destruct (Unmarshal_Ok _ _ H) as [->| [-> ->]];
               [|cbn in *; try discriminate]
           end.
  all: try (split; [reflexivity|]; intros resp [= <-]; split;
            [intros (body & rd & c0 & rest & Hs & Hb & Hu & Hc & Hn)
            |intros raw (rd & fc & o & mm & Hs & Hb & Hc & Hm & Hcont);
             pose proof (eq_refl : Unmarshal (Some (JObject rd)) = Ok rd)];
            first [congruence | by eapply Hn; congruence]).
  all: try (split; [reflexivity|]; intros resp ?; discriminate).
  all: try (split; [reflexivity|]; eexists; split; [reflexivity|]; split;
            [do 4 eexists; split_and!; eauto; intros fields; congruence
            |intros raw (rd & fc & o & mm & Hs & Hb & Hc & Hm & Hcont);
             congruence]).
  - exists a, s0. split; [done|]. split.
    { exists a1, fields, l, fields0. by split_and!. }
    split; [|done].
    intros (body & rd & c0 & rest & Hs & Hb & Hu & Hc & Hn).
    apply (Hn fields). congruence.
  - split; [done|]. intros resp [= <-]. split.
    + intros (body & rd & c0 & rest & Hs & Hb & Hu & Hc & Hn).
      assert (body = Some JNull) as -> by congruence.
      cbn in Hu. by simplify_eq.
    + intros raw (rd & fc & o & mm & Hs & Hb & Hc & Hm & Hcont).
      congruence.
Qed.

(** X4. The outcome of [askChatGPT] is decided by the response.  One
    request is sent in every case.  A reply is returned only when the
    response carries a text at [choices[0].message.content]: the reply is
    the shaped text and the exchange is committed to the history.  The call
    panics only when the status is 200, the body parses and [choices[0]]
    is there but is not an object.  An error is returned only when the
    response is of neither kind.  After an error or a panic the history is
    the one before the call. *)
Theorem askChatGPT_result_by_response (message : gostring)
  (do : result Response) (s : Service) :
  match askChatGPT message do s with
  | (r, s', events) =>
      events = [HttpPost (request s message)] /\
      match r with
      | Val (Ok reply) =>
          exists resp raw,
            do = Ok resp /\ carries resp raw /\ ~ malformedChoice resp /\
            reply = shapeReply raw /\
            s' = setHistory
                   (committed (conversationHistory s)
                      (mkTurn (str "user") (userContent message))
                      (mkTurn (str "assistant") reply)) s
      | Val (Err _) =>
          s' = s /\
          forall resp, do = Ok resp ->
            ~ malformedChoice resp /\ forall raw, ~ carries resp raw
      | Panic _ =>
          s' = s /\
          exists resp, do = Ok resp /\ malformedChoice resp /\
            forall raw, ~ carries resp raw
      | Continue => False
      end
  end.
Proof. exact (wp_match _ _ _ (askChatGPT_cases message do s)). Qed.

(** ** The house style *)

Lemma HasPrefix_nil (s : gostring) : strings.HasPrefix s [] = true.
Proof. by destruct s. Qed.

Lemma replaceFrom_single (c : rune) (new s : gostring) :
  strings.replaceFrom [c] new 0 s
  = flat_map (fun r => if r =? c then new else [r]) s.
Proof.
  induction s as [|r s IH]; [done|].
  cbn [strings.replaceFrom strings.HasPrefix flat_map length Nat.sub].
  rewrite HasPrefix_nil, andb_true_r, IH.
  by destruct (r =? c).
Qed.

Lemma ReplaceAll_single (P : rune -> Prop) (c : rune) (new s : gostring) :
  Forall P new ->
  Forall (fun r => r <> c -> P r) s ->
  Forall P (strings.ReplaceAll s [c] new).
Proof.
  intros Hnew Hs. unfold strings.ReplaceAll.
  case_decide as Heq.
  - subst new. inversion Hnew as [|? ? Hc _]; subst.
    eapply Forall_impl; [exact Hs|]. intros r Hr. cbn in Hr.
    destruct (decide (r = c)) as [->|]; auto.
  - rewrite replaceFrom_single. apply Forall_flat_map.
    eapply Forall_impl; [exact Hs|]. intros r Hr. cbn in Hr.
    destruct (N.eqb_spec r c); [done|]. constructor; auto.
Qed.

Lemma Forall_Join (P : rune -> Prop) (ws : list gostring) (sep : gostring) :
  Forall P sep -> Forall (Forall P) ws -> Forall P (strings.Join ws sep).
Proof.
  intros Hsep. induction 1 as [|w ws Hw Hws IH]; [constructor|].
  cbn [strings.Join]. destruct ws as [|w' ws]; [done|].
  apply Forall_app. split; [done|]. apply Forall_app. auto.
Qed.

Lemma Forall_fieldsFrom (P : rune -> Prop) (s : gostring)
  (start : option gostring) :
  Forall P s -> Forall P (default [] start) ->
  Forall (Forall P) (strings.fieldsFrom start s).
Proof.
  intros Hs. revert start. induction Hs as [|r s Hr Hs IH]; intros start Hst.
  - destruct start; cbn; auto.
  - cbn [strings.fieldsFrom]. destruct (unicode.IsSpace r).
    + destruct start; [constructor; [done|]|]; by apply IH.
    + apply IH. destruct start; cbn in *; [apply Forall_app|]; auto.
Qed.

Lemma convertPunctuation_style (raw : gostring) :
  Forall (fun r => r <> 44 /\ r <> 46) (convertPunctuation raw).
Proof.
  unfold convertPunctuation. apply ReplaceAll_single.
  - by repeat constructor.
  - eapply Forall_impl.
    + apply (ReplaceAll_single (fun r => r <> 44)); [constructor|].
      apply Forall_forall. auto.
    + cbn. auto.
Qed.

Lemma userContent_style (message : gostring) :
  Forall (fun r => r <> 44 /\ r <> 46) (userContent message).
Proof.
  unfold userContent. apply ReplaceAll_single.
  - by repeat constructor.
  - eapply Forall_impl.
    + apply (ReplaceAll_single (fun r => r <> 44)); [constructor|].
      apply Forall_forall. auto.
    + cbn. auto.
Qed.

Lemma noPunctuation_Forall (text : gostring) :
  Forall (fun r => r <> 44 /\ r <> 46) text -> noPunctuation text.
Proof.
  intros H. split; intros Hin;
    by destruct (proj1 (List.Forall_forall _ _) H _ Hin).
Qed.

Lemma shapeReply_style (raw : gostring) :
  noPunctuation (shapeReply raw) /\
  (length (strings.Fields (shapeReply raw)) <= 50)%nat.
Proof.
  unfold shapeReply. fold (convertPunctuation raw).
  pose proof (convertPunctuation_style raw) as Hstyle.
  destruct (Nat.ltb_spec 50 (length (strings.Fields (convertPunctuation raw))))
    as [Hlong|Hshort].
  - split.
    + apply noPunctuation_Forall, Forall_Join; [by repeat constructor|].
      apply Forall_take, Forall_fieldsFrom; [done|constructor].
    + rewrite Fields_Join by apply Forall_take, Fields_words.
      rewrite length_take. lia.
  - split; [by apply noPunctuation_Forall|done].
Qed.

(** X5. The user's message as it is sent and stored has neither a comma
    nor a period; every reply that [askChatGPT] returns has neither a comma
    nor a period, and at most 50 words. *)
Theorem reply_has_no_comma_no_period_and_at_most_50_words
  (message : gostring) (do : result Response) (s : Service) :
  noPunctuation (userContent message) /\
  match askChatGPT message do s with
  | (r, _, _) =>
      forall reply, r = Val (Ok reply) ->
        noPunctuation reply /\ (length (strings.Fields reply) <= 50)%nat
  end.
Proof.
  split; [apply noPunctuation_Forall, userContent_style|].
  apply (wp_match (askChatGPT message do)
           (fun r _ _ =>
              forall reply, r = Val (Ok reply) ->
                noPunctuation reply /\
                (length (strings.Fields reply) <= 50)%nat)).
  eapply wp_mono; [apply askChatGPT_cases|].
  intros r s' ev [_ Hr] reply ->.
  destruct Hr as (resp & raw & _ & _ & _ & -> & _).
  apply shapeReply_style.
Qed.

Lemma committed_exchanges (h : list Turn) (u a : gostring) :
  exchanges h -> noPunctuation u -> noPunctuation a ->
  exchanges (committed h (mkTurn (str "user") u) (mkTurn (str "assistant") a)).
Proof.
  intros (qs & Hlen & -> & Hqs) Hu Ha.
  pose proof (committed_exchange qs (u, a) Hlen) as Heq.
  cbn [fst snd] in Heq. rewrite Heq.
  eexists. split; [|split; [reflexivity|]].
  - rewrite length_drop, length_app. cbn. lia.
  - apply Forall_drop, Forall_app. split; [done|].
    constructor; [by split|constructor].
Qed.

Lemma wp_askChatGPT_cases (message : gostring) (do : result Response)
  (Q : Flow (result gostring) -> Service -> list Event -> Prop)
  (s : Service) :
  (forall r h,
      h = conversationHistory s \/
      (exists raw,
          h = committed (conversationHistory s)
                (mkTurn (str "user") (userContent message))
                (mkTurn (str "assistant") (shapeReply raw))) ->
      Q r (setHistory h s) [HttpPost (request s message)]) ->
  wp (askChatGPT message do) Q s.
Proof.
  intros HQ. eapply wp_mono; [apply askChatGPT_cases|].
  intros r s' ev [-> Hr].
  destruct r as [[reply|e]| |msg]; [| | done |].
  - destruct Hr as (resp & raw & _ & _ & _ & -> & ->).
    apply HQ. right. by exists raw.
  - destruct Hr as [-> _]. rewrite <- (setHistory_id s) at 1.
    apply HQ. by left.
  - destruct Hr as [-> _]. rewrite <- (setHistory_id s) at 1.
    apply HQ. by left.
Qed.

Lemma wp_typeInChat_quiet (response : gostring)
  (box : result (option TextBox))
  (Q : Flow (option error) -> Service -> list Event -> Prop) (s : Service) :
  (forall e ev, completionCalls ev = [] -> Q (Val e) s ev) ->
  wp (typeInChat response box) Q s.
Proof. intros HQ. unfold typeInChat. repeat wp_step; by apply HQ. Qed.

(** The requests and the input-box actions of a sequence of events. *)
Ltac events :=
  repeat first
    [ progress cbn [app completionCalls injections]
    | rewrite completionCalls_app
    | rewrite injections_app
    | rewrite app_nil_r ].

(** * Further properties of the watch loop *)

Section WatchMore.

Variable foldOrbit : rune -> rune -> bool.

#[local] Arguments seen : simpl never.
#[local] Arguments namesBot : simpl never.
#[local] Arguments strings.TrimSpace : simpl never.
#[local] Arguments stripMentions : simpl never.
#[local] Arguments str : simpl never.

Lemma isMentionedLoop_log (mentions : list MentionElement) (s : Service) :
  isMentionedLoop foldOrbit mentions s
  = (Val (existsb (mentionsBot foldOrbit s) mentions), s,
     mentionLog foldOrbit s mentions).
Proof.
  induction mentions as [|m mentions IH]; [done|].
  cbn [isMentionedLoop existsb mentionLog]. unfold mentionsBot at 1 3.
  destruct (mentionInnerText m) as [text|e].
  - unfold bind, get. fold (namesBot foldOrbit text s).
    unfold namesBot at 2.
    destruct (namesBot foldOrbit text s) eqn:Hn; unfold namesBot in Hn;
      rewrite Hn; [done|]. by rewrite IH.
  - unfold bind, emit. by rewrite IH.
Qed.

Lemma mentionLog_quiet (mentions : list MentionElement) (s : Service) :
  completionCalls (mentionLog foldOrbit s mentions) = [] /\
  injections (mentionLog foldOrbit s mentions) = [].
Proof.
  induction mentions as [|m mentions IH]; [done|].
  cbn [mentionLog]. destruct (mentionInnerText m); [|done].
  by destruct (mentionsBot foldOrbit s m).
Qed.




Lemma readMessage_cases (entry : Entry) (s : Service) :
  wp (readMessage foldOrbit entry)
    (fun _ s' events =>
       (s' = s /\ completionCalls events = [] /\ injections events = []) \/
       exists id,
         dataListItemId (message entry) = Ok id /\ id <> [] /\
         seen s id = false /\
         ((s' = markSeen id s /\
           completionCalls events = [] /\ injections events = []) \/
          exists text h,
            completionCalls events = [request s text] /\
            s' = setHistory h (markSeen id s) /\
            (h = conversationHistory s \/
             exists raw,
               h = committed (conversationHistory s)
                     (mkTurn (str "user") (userContent text))
                     (mkTurn (str "assistant") (shapeReply raw)))))
    s.
Proof.
  unfold readMessage. cbv zeta. repeat wp_step.
  all: try (left; by split_and!).
  all: try (right; eexists; split_and!; [done..|]; left; by split_and!).
  all: apply wp_isMentionedLoop; intros isMentioned ev Hcalls Hinj.
  all: repeat wp_step.
  all: try (right; eexists; split_and!; [done..|]; left; cbn [app];
            rewrite ?completionCalls_app, ?injections_app, ?Hcalls, ?Hinj;
            by split_and!).
  apply wp_bind, wp_askChatGPT_cases. intros r h Hh.
  unfold wpBind. destruct r as [r| |msg].
  - repeat wp_step.
    2: { right; eexists; split_and!; [done..|]; right; do 2 eexists;
         split_and!; [|reflexivity|exact Hh].
         cbn [app]. rewrite ?completionCalls_app, ?Hcalls. reflexivity. }
    apply wp_bind, wp_typeInChat_quiet. intros e ev' Hev'.
    unfold wpBind. repeat wp_step.
    all: right; eexists; split_and!; [done..|]; right; do 2 eexists;
         split_and!; [|reflexivity|exact Hh].
    all: cbn [app]; rewrite ?completionCalls_app, ?Hcalls;
         cbn [app completionCalls]; rewrite ?completionCalls_app, ?Hev';
         reflexivity.
  - right; eexists; split_and!; [done..|]; right; do 2 eexists;
      split_and!; [|reflexivity|exact Hh].
    cbn [app]. rewrite ?completionCalls_app, ?Hcalls. reflexivity.
  - right; eexists; split_and!; [done..|]; right; do 2 eexists;
      split_and!; [|reflexivity|exact Hh].
    cbn [app]. rewrite ?completionCalls_app, ?Hcalls. reflexivity.
Qed.

Lemma wp_forEach_rel {A} (I : Service -> Prop)
  (R : Service -> Service -> list Event -> Prop) (l : list A)
  (body : A -> M unit) :
  (forall s, R s s []) ->
  (forall s1 s2 s3 e1 e2, R s1 s2 e1 -> R s2 s3 e2 -> R s1 s3 (e1 ++ e2)) ->
  Forall (fun a =>
            forall s, I s -> wp (body a) (fun _ s' ev => I s' /\ R s s' ev) s)
    l ->
  forall s, I s -> wp (forEach l body) (fun _ s' ev => I s' /\ R s s' ev) s.
Proof.
  intros Hrefl Htrans. induction 1 as [|a l Ha Hl IH]; intros s HI.
  - apply wp_ret. auto.
  - unfold wp. cbn [forEach]. specialize (Ha s HI). unfold wp in Ha.
    destruct (body a s) as [[r s1] ev1]. cbn [fst snd] in Ha.
    destruct Ha as [HI1 HR1]. specialize (IH s1 HI1). unfold wp in IH.
    destruct r as [[]| |msg]; [| |by split].
    all: destruct (forEach l body s1) as [[r2 s2] ev2]; cbn [fst snd] in *.
    all: destruct IH as [HI2 HR2]; split; [done|]; by eapply Htrans.
Qed.

Lemma wp_pollLoop_rel (I : Service -> Prop)
  (R : Service -> Service -> list Event -> Prop) (ticks : list Tick) :
  (forall s, R s s []) ->
  (forall s1 s2 s3 e1 e2, R s1 s2 e1 -> R s2 s3 e2 -> R s1 s3 (e1 ++ e2)) ->
  (forall entry s,
      I s ->
      wp (readMessage foldOrbit entry) (fun _ s' ev => I s' /\ R s s' ev) s) ->
  forall s,
    I s -> wp (pollLoop foldOrbit ticks) (fun _ s' ev => I s' /\ R s s' ev) s.
Proof.
  intros Hrefl Htrans Hbody.
  induction ticks as [|[err|[messages|e]] ticks IH]; intros s HI;
    cbn [pollLoop]; try (apply wp_ret; by auto).
  apply wp_bind. eapply wp_mono.
  { apply (wp_forEach_rel I R); [done..| |done].
    apply Forall_forall. intros entry _. apply Hbody. }
  intros r s1 ev1 [HI1 HR1]. unfold wpBind. destruct r; [|done..].
  eapply wp_mono; [by apply IH|]. cbn beta.
  intros r2 s2 ev2 [HI2 HR2]. split; [done|]. by eapply Htrans.
Qed.

Lemma ReadMessages_eq (initial : result (list ElementHandle))
  (ticks : list Tick) (s : Service) :
  ReadMessages foldOrbit initial ticks s
  = match initializeSeenMessages initial (resetSeen s) with
    | (Val None, s0, ev0) =>
        match pollLoop foldOrbit ticks s0 with
        | (r, s', ev) =>
            (r, s',
             Println [str "Initializing seen messages..."]
               :: ev0 ++ Println [str "Starting to read new messages..."]
               :: ev)
        end
    | (Val (Some e), s0, ev0) =>
        (Val (Returned (wrapError "failed to initialize seen messages" e)),
         s0, Println [str "Initializing seen messages..."] :: ev0 ++ [])
    | (Continue, s0, ev0) =>
        (Continue, s0, Println [str "Initializing seen messages..."] :: ev0)
    | (Panic msg, s0, ev0) =>
        (Panic msg, s0, Println [str "Initializing seen messages..."] :: ev0)
    end.
Proof.
  unfold ReadMessages, bind, modify, emit. cbn.
  destruct (initializeSeenMessages initial (resetSeen s))
    as [[[[e|]| |msg] s0] ev0]; cbn; try reflexivity.
  by destruct (pollLoop foldOrbit ticks s0) as [[r s'] ev].
Qed.

Lemma wellFormedRequest_request (s : Service) (text : gostring) :
  exchanges (conversationHistory s) -> wellFormedRequest (request s text).
Proof.
  intros Hh. exists (conversationHistory s), (userContent text).
  split; [done|]. split; [|done].
  apply noPunctuation_Forall, userContent_style.
Qed.

Lemma wellFormedRequest_length (messages : list Turn) :
  wellFormedRequest messages -> (2 <= length messages <= 12)%nat.
Proof.
  intros (h & user & (pairs & Hlen & -> & _) & _ & ->).
  rewrite !length_app, flat_map_exchange_length. cbn. lia.
Qed.

Lemma readMessage_well_formed (entry : Entry) (s : Service) :
  exchanges (conversationHistory s) ->
  wp (readMessage foldOrbit entry)
    (fun _ s' ev =>
       exchanges (conversationHistory s') /\
       Forall wellFormedRequest (completionCalls ev)) s.
Proof.
  intros Hh. eapply wp_mono; [apply readMessage_cases|]. cbn beta.
  intros _ s' ev [(-> & -> & _)|(id & _ & _ & _ & Hcase)]; [by split|].
  destruct Hcase as [(-> & -> & _)|(text & h & -> & -> & Hcase)];
    [by split|].
  split.
  - cbn. destruct Hcase as [->|[raw ->]]; [done|].
    apply committed_exchanges; [done|..].
    + apply noPunctuation_Forall, userContent_style.
    + apply shapeReply_style.
  - constructor; [|constructor]. by apply wellFormedRequest_request.
Qed.

Lemma wp_initializeSeenMessages_any
  (initial : result (list ElementHandle)) (s : Service) :
  wp (initializeSeenMessages initial)
    (fun _ s' ev =>
       completionCalls ev = [] /\ injections ev = [] /\
       conversationHistory s' = conversationHistory s /\
       (onlyTrue s -> onlyTrue s')) s.
Proof.
  destruct initial as [messages|e]; [|by apply wp_ret].
  unfold initializeSeenMessages. apply wp_bind.
  eapply wp_mono.
  { apply (wp_forEach_rel (fun _ => True)
             (fun s1 s2 ev =>
                completionCalls ev = [] /\ injections ev = [] /\
                conversationHistory s2 = conversationHistory s1 /\
                (onlyTrue s1 -> onlyTrue s2))); [by intros| | |done].
    - intros s1 s2 s3 e1 e2 (Hc1 & Hi1 & Hh1 & Ht1) (Hc2 & Hi2 & Hh2 & Ht2).
      rewrite completionCalls_app, injections_app, Hc1, Hc2, Hi1, Hi2.
      split_and!; [done|done|congruence|auto].
    - apply Forall_forall. intros m _ s1 _. repeat wp_step; split; try done.
      split_and!; try done. intros Ht id v. cbn.
      destruct (decide (a = id)) as [->|Hne].
      + rewrite lookup_insert_eq. congruence.
      + rewrite lookup_insert_ne by done. apply Ht. }
  cbn beta. intros r s1 ev1 [_ (Hc & Hi & Hh & Ht)].
  unfold wpBind. destruct r; [apply wp_ret; rewrite app_nil_r|..]; done.
Qed.

Lemma ReadMessages_well_formed (initial : result (list ElementHandle))
  (ticks : list Tick) (s : Service) :
  exchanges (conversationHistory s) ->
  wp (ReadMessages foldOrbit initial ticks)
    (fun _ s' ev =>
       exchanges (conversationHistory s') /\
       Forall wellFormedRequest (completionCalls ev)) s.
Proof.
  intros Hh.
  unfold ReadMessages. repeat wp_step. apply wp_bind.
  eapply wp_mono; [apply wp_initializeSeenMessages_any|]. cbn beta.
  intros r s0 ev0 (Hc0 & _ & Hh0 & _). unfold wpBind.
  cbn in Hh0. rewrite <- Hh0 in Hh.
  destruct r as [[e|]| |msg];
    try ((repeat wp_step); events; rewrite Hc0; split; [done|constructor]).
  repeat wp_step. eapply wp_mono.
  { apply (wp_pollLoop_rel (fun s => exchanges (conversationHistory s))
             (fun _ _ ev => Forall wellFormedRequest (completionCalls ev))).
    - intros. constructor.
    - intros. rewrite completionCalls_app. apply Forall_app. auto.
    - intros. by apply readMessage_well_formed.
    - done. }
  cbn beta. intros r s' ev [H1 H2]. split; [done|].
  events. rewrite Hc0. exact H2.
Qed.

(** X6. From a history made of at most five whole exchanges without comma
    and period (the empty history of [New] is one), a run of [ReadMessages]
    ends with such a history, whatever the page and the endpoint answer.
    Every request sent is the system prompt, such a history and one user
    turn without comma and period: it has between 2 and 12 messages. *)
Theorem history_and_requests_stay_well_formed
  (initial : result (list ElementHandle)) (ticks : list Tick) (s : Service) :
  exchanges (conversationHistory s) ->
  match ReadMessages foldOrbit initial ticks s with
  | (r, s', events) =>
      exchanges (conversationHistory s') /\
      Forall wellFormedRequest (completionCalls events) /\
      Forall (fun messages => (2 <= length messages <= 12)%nat)
        (completionCalls events)
  end.
Proof.
  intros Hh.
  pose proof (wp_match _ _ _ (ReadMessages_well_formed initial ticks s Hh))
    as H.
  destruct (ReadMessages foldOrbit initial ticks s) as [[r s'] ev].
  destruct H as [H1 H2]. split_and!; [done..|].
  eapply Forall_impl; [exact H2|]. apply wellFormedRequest_length.
Qed.


Lemma onlyTrue_markSeen (id : gostring) (s : Service) :
  onlyTrue s -> onlyTrue (markSeen id s).
Proof.
  intros Ht id' v. cbn. destruct (decide (id = id')) as [->|Hne].
  - rewrite lookup_insert_eq. congruence.
  - rewrite lookup_insert_ne by done. apply Ht.
Qed.

Lemma size_markSeen (id : gostring) (s : Service) :
  onlyTrue s -> seen s id = false ->
  size (seenMessages (markSeen id s)) = S (size (seenMessages s)).
Proof.
  intros Ht Hnew. cbn. apply map_size_insert_None.
  unfold seen in Hnew. destruct (seenMessages s !! id) as [v|] eqn:Hv; [|done].
  rewrite (Ht id v Hv) in Hnew. discriminate.
Qed.

Lemma readMessage_counts (entry : Entry) (s : Service) :
  onlyTrue s ->
  wp (readMessage foldOrbit entry)
    (fun _ s' ev =>
       onlyTrue s' /\
       (length (completionCalls ev) + size (seenMessages s)
        <= size (seenMessages s'))%nat) s.
Proof.
  intros Ht. eapply wp_mono; [apply readMessage_cases|]. cbn beta.
  intros _ s' ev [(-> & -> & _)|(id & _ & _ & Hnew & Hcase)];
    [split; [done|cbn; lia]|].
  pose proof (size_markSeen id s Ht Hnew) as Hsize.
  pose proof (onlyTrue_markSeen id s Ht) as Ht'.
  destruct Hcase as [(-> & -> & _)|(text & h & -> & -> & _)].
  - split; [done|]. rewrite Hsize. cbn. lia.
  - split; [exact Ht'|]. cbn [setHistory seenMessages length] in *.
    rewrite Hsize. lia.
Qed.

(** X7. In a run of [ReadMessages] the number of requests sent is at most
    the number of ids that entered the seen set after the initialization
    pass: every request uses up an id that was not seen before. *)
Theorem requests_are_bounded_by_new_ids
  (initial : result (list ElementHandle)) (ticks : list Tick) (s : Service) :
  match ReadMessages foldOrbit initial ticks s with
  | (r, s', events) =>
      (length (completionCalls events)
       + size (seenMessages (snd (fst (ReadMessages foldOrbit initial [] s))))
       <= size (seenMessages s'))%nat
  end.
Proof.
  rewrite !ReadMessages_eq.
  pose proof (wp_initializeSeenMessages_any initial (resetSeen s)) as Hinit.
  unfold wp in Hinit.
  destruct (initializeSeenMessages initial (resetSeen s))
    as [[r0 s0] ev0]. cbn [fst snd] in Hinit.
  destruct Hinit as (Hc0 & _ & _ & Ht0).
  assert (Ht : onlyTrue s0).
  { apply Ht0. intros id v. cbn. by rewrite lookup_empty. }
  destruct r0 as [[e|]| |msg]; cbn [pollLoop ret fst snd].
  1, 3, 4: events; rewrite Hc0; cbn; lia.
  pose proof (wp_pollLoop_rel onlyTrue
                (fun s1 s2 ev =>
                   (length (completionCalls ev) + size (seenMessages s1)
                    <= size (seenMessages s2))%nat) ticks) as Hpoll.
  unfold wp in Hpoll.
  specialize (Hpoll ltac:(intros; cbn; lia)).
  specialize (Hpoll ltac:(intros *; rewrite completionCalls_app, length_app;
                          lia)).
  specialize (Hpoll ltac:(intros; by apply readMessage_counts) s0 Ht).
  destruct (pollLoop foldOrbit ticks s0) as [[r s'] ev].
  cbn [fst snd] in Hpoll. destruct Hpoll as [_ Hle].
  events. rewrite Hc0. cbn [app]. exact Hle.
Qed.

Lemma readMessage_passed_over (entry : Entry) (s : Service) :
  match dataListItemId (message entry) with
  | Ok id => id = [] \/ seen s id = true
  | Err _ => True
  end ->
  wp (readMessage foldOrbit entry)
    (fun _ s' ev =>
       s' = s /\ completionCalls ev = [] /\ injections ev = []) s.
Proof.
  intros Hid. unfold readMessage. cbv zeta.
  destruct (dataListItemId (message entry)) as [id|e].
  - apply wp_bind, wp_orLogContinue. unfold wpBind.
    destruct (decide (id = [])) as [->|Hne]; [by apply wp_continue|].
    destruct Hid as [?|Hseen]; [done|].
    apply wp_bind, wp_get. unfold wpBind. rewrite Hseen.
    by apply wp_continue.
  - apply wp_bind, wp_orLogContinue. by unfold wpBind.
Qed.

Lemma pollLoop_passed_over (ticks : list Tick) (s : Service) :
  Forall (fun tick =>
            match tick with
            | Poll (Ok entries) =>
                Forall (fun entry =>
                          match dataListItemId (message entry) with
                          | Ok id => id = [] \/ seen s id = true
                          | Err _ => True
                          end) entries
            | _ => True
            end) ticks ->
  wp (pollLoop foldOrbit ticks)
    (fun _ s' ev =>
       s' = s /\ completionCalls ev = [] /\ injections ev = []) s.
Proof.
  induction 1 as [|[err|[entries|e]] ticks Hentries Hticks IH];
    cbn [pollLoop]; try by apply wp_ret.
  apply wp_bind. eapply wp_mono.
  { apply (wp_forEach_rel (fun s' => s' = s)
             (fun _ _ ev => completionCalls ev = [] /\ injections ev = []));
      [done| | |done].
    - intros _ _ _ e1 e2 [Hc1 Hi1] [Hc2 Hi2].
      by rewrite completionCalls_app, injections_app, Hc1, Hc2, Hi1, Hi2.
    - eapply Forall_impl; [exact Hentries|]. cbn beta.
      intros entry Hentry s' ->. by apply readMessage_passed_over. }
  cbn beta. intros r s1 ev1 [-> [Hc1 Hi1]]. unfold wpBind.
  destruct r; [|done..].
  eapply wp_mono; [exact IH|]. cbn beta.
  intros r s2 ev2 (-> & Hc2 & Hi2).
  by rewrite completionCalls_app, injections_app, Hc1, Hc2, Hi1, Hi2.
Qed.

(** X8. Messages that were on the page when [ReadMessages] started are
    never answered: when every message of every poll answers the query for
    its id as a message of the first enumeration did, no request is sent,
    nothing is typed and the history stays as it is, for any number of
    polls. *)
Theorem messages_present_at_start_are_never_answered
  (initial : list ElementHandle) (ticks : list Tick) (s : Service) :
  Forall (presentAtStart initial) ticks ->
  match ReadMessages foldOrbit (Ok initial) ticks s with
  | (r, s', events) =>
      completionCalls events = [] /\
      injections events = [] /\
      conversationHistory s' = conversationHistory s
  end.
Proof.
  intros Hticks.
  apply (wp_match (ReadMessages foldOrbit (Ok initial) ticks)
           (fun _ s' events =>
              completionCalls events = [] /\
              injections events = [] /\
              conversationHistory s' = conversationHistory s)).
  unfold ReadMessages. repeat wp_step. apply wp_bind.
  eapply wp_mono; [apply wp_initializeSeenMessages|]. cbn beta.
  intros r s0 ev0 (-> & (Hc0 & Hi0 & Hh0) & _ & Hseen). unfold wpBind.
  repeat wp_step. eapply wp_mono.
  { apply pollLoop_passed_over.
    eapply Forall_impl; [exact Hticks|]. cbn beta.
    intros [err|[entries|e]]; cbn [presentAtStart]; try done.
    intros Hentries. eapply Forall_impl; [exact Hentries|]. cbn beta.
    intros entry Hin.
    apply in_map_iff in Hin as (m & Heq & Hin). rewrite <- Heq.
    exact (proj1 (List.Forall_forall _ _) Hseen m Hin). }
  cbn beta. intros r s' ev (-> & Hc & Hi).
  events. by rewrite Hc0, Hi0, Hc, Hi.
Qed.

Lemma mentionLog_markSeen (id : gostring) (s : Service)
  (mentions : list MentionElement) :
  mentionLog foldOrbit (markSeen id s) mentions
  = mentionLog foldOrbit s mentions.
Proof.
  induction mentions as [|m mentions IH]; [done|].
  cbn [mentionLog]. by rewrite IH.
Qed.

(** X2. A new message of another author that neither replies to the bot
    nor has a mention of it is marked as seen and left alone: the content is
    not read, nothing is asked of the completion endpoint, nothing is
    typed.  The only events are the log records of the mentions whose text
    could not be read. *)
Theorem unaddressed_message_is_only_marked (entry : Entry) (s : Service)
  (id : gostring) (usernameEl : TextElement) (author : gostring)
  (mentions : list MentionElement) :
  dataListItemId (message entry) = Ok id ->
  id <> [] ->
  seen s id = false ->
  usernameElement (message entry) = Ok (Some usernameEl) ->
  InnerText usernameEl = Ok author ->
  namesBot foldOrbit author s = false ->
  isReplyToBot foldOrbit s (message entry) = Ok false ->
  mentionElements (message entry) = Ok mentions ->
  existsb (mentionsBot foldOrbit s) mentions = false ->
  readMessage foldOrbit entry s
  = (Val tt, markSeen id s, mentionLog foldOrbit s mentions) /\
  completionCalls (mentionLog foldOrbit s mentions) = [] /\
  injections (mentionLog foldOrbit s mentions) = [].
Proof.
  intros Hid Hne Hnew Hel Hauthor Hother Hreply Hmentions Hnone.
  split; [|apply mentionLog_quiet].
  unfold readMessage. rewrite Hid. run.
  destruct (decide (id = [])); [done|]. cbn. rewrite Hnew. cbn.
  rewrite Hel. cbn. rewrite Hauthor. cbn.
  rewrite namesBot_markSeen, Hother, isReplyToBot_markSeen, Hreply. cbn.
  rewrite Hmentions. cbn. rewrite isMentionedLoop_log.
  change (existsb (mentionsBot foldOrbit (markSeen id s)) mentions)
    with (existsb (mentionsBot foldOrbit s) mentions).
  rewrite Hnone. cbn. by rewrite app_nil_r, mentionLog_markSeen.
Qed.

Lemma wp_typeInChat_spec (response : gostring)
  (inputBox : result (option TextBox))
  (Q : Flow (option error) -> Service -> list Event -> Prop) (s : Service) :
  (forall e ev,
      ev `prefix_of` [Click; TypeText response; Press "Enter"] ->
      injections ev = ev ->
      completionCalls ev = [] ->
      (e = None -> ev = [Click; TypeText response; Press "Enter"]) ->
      (forall box,
          inputBox = Ok (Some box) -> boxClick box = None ->
          boxType box = None -> boxPress box = None -> e = None) ->
      Q (Val e) s ev) ->
  wp (typeInChat response inputBox) Q s.
Proof.
  intros HQ. unfold typeInChat. repeat wp_step; apply HQ; try done.
  all: try (cbn; first [apply prefix_nil | by eexists]).
  all: intros box' ? ? ? ?; congruence.
Qed.

(** X3. A new message of another author that mentions the bot or replies
    to it, and whose content can be read, is asked about once: the request
    is made of the content trimmed, freed of the text of every mention and
    trimmed again.  Its id is seen afterwards.  When the response carries a
    text, the exchange is committed to the history and the input box gets a
    click, the shaped reply and [Enter], in this order and as far as the
    actions succeed; all three when the box works.  When the response
    carries no text, nothing is typed and the history is the one before. *)
Theorem addressed_message_is_asked_once (entry : Entry) (s : Service)
  (id : gostring) (usernameEl : TextElement) (author : gostring)
  (isReply : bool) (mentions : list MentionElement)
  (contentEl : TextElement) (text : gostring) :
  dataListItemId (message entry) = Ok id ->
  id <> [] ->
  seen s id = false ->
  usernameElement (message entry) = Ok (Some usernameEl) ->
  InnerText usernameEl = Ok author ->
  namesBot foldOrbit author s = false ->
  isReplyToBot foldOrbit s (message entry) = Ok isReply ->
  mentionElements (message entry) = Ok mentions ->
  addressed foldOrbit s mentions isReply = true ->
  contentElement (message entry) = Ok (Some contentEl) ->
  InnerText contentEl = Ok text ->
  let cleaned :=
    strings.TrimSpace (stripMentions (strings.TrimSpace text) mentions) in
  match readMessage foldOrbit entry s with
  | (r, s', events) =>
      completionCalls events = [request s cleaned] /\
      seen s' id = true /\
      (forall resp raw,
          completion entry = Ok resp -> carries resp raw ->
          conversationHistory s'
          = committed (conversationHistory s)
              (mkTurn (str "user") (userContent cleaned))
              (mkTurn (str "assistant") (shapeReply raw)) /\
          injections events
            `prefix_of` [Click; TypeText (shapeReply raw); Press "Enter"] /\
          forall box,
            textbox entry = Ok (Some box) -> boxClick box = None ->
            boxType box = None -> boxPress box = None ->
            r = Val tt /\
            injections events
            = [Click; TypeText (shapeReply raw); Press "Enter"]) /\
      ((forall resp raw, completion entry = Ok resp -> ~ carries resp raw) ->
       injections events = [] /\
       conversationHistory s' = conversationHistory s)
  end.
Proof.
  intros Hid Hne Hnew Hel Hauthor Hother Hreply Hmentions Haddr Hcontent
    Htext cleaned.
  apply (wp_match (readMessage foldOrbit entry)
           (fun r s' events =>
              completionCalls events = [request s cleaned] /\
              seen s' id = true /\
              (forall resp raw,
                  completion entry = Ok resp -> carries resp raw ->
                  conversationHistory s'
                  = committed (conversationHistory s)
                      (mkTurn (str "user") (userContent cleaned))
                      (mkTurn (str "assistant") (shapeReply raw)) /\
                  injections events
                    `prefix_of`
                    [Click; TypeText (shapeReply raw); Press "Enter"] /\
                  forall box,
                    textbox entry = Ok (Some box) -> boxClick box = None ->
                    boxType box = None -> boxPress box = None ->
                    r = Val tt /\
                    injections events
                    = [Click; TypeText (shapeReply raw); Press "Enter"]) /\
              ((forall resp raw,
                   completion entry = Ok resp -> ~ carries resp raw) ->
               injections events = [] /\
               conversationHistory s' = conversationHistory s))).
  unfold readMessage. cbv zeta.
  rewrite Hid, Hel, Hmentions, Hcontent.
  repeat wp_step.
  all: rewrite ?namesBot_markSeen, ?isReplyToBot_markSeen in *.
  all: try congruence.
  all: simplify_eq.
  all: try congruence.
  assert (a0 = isReply) as -> by congruence.
  eapply wp_eq; [apply isMentionedLoop_log|]. unfold wpBind.
  destruct (mentionLog_quiet mentions (markSeen id s))
    as [Hlc Hli].
  change (existsb (mentionsBot foldOrbit (markSeen id s)) mentions || isReply)
    with (addressed foldOrbit s mentions isReply).
  rewrite Haddr. repeat wp_step; simplify_eq.
  apply wp_bind. eapply wp_mono; [apply askChatGPT_cases|]. cbn beta.
  intros r s1 ev1 [-> Hr]. unfold wpBind.
  destruct r as [[reply|e]| |msg]; [| |done|].
  - destruct Hr as (resp & raw & Hdo & Hcarries & _ & -> & ->).
    repeat wp_step. apply wp_bind, wp_typeInChat_spec.
    intros e ev Hprefix Hinj Hcalls Hfull Hworks. unfold wpBind.
    assert (Hraw : forall resp' raw',
               completion entry = Ok resp' -> carries resp' raw' ->
               shapeReply raw' = shapeReply raw).
    { intros resp' raw' Hdo' Hcarries'.
      pose proof (askChatGPT_success cleaned raw' resp' (markSeen id s)
                    Hcarries') as H1.
      pose proof (askChatGPT_success cleaned raw resp (markSeen id s)
                    Hcarries) as H2.
      rewrite Hdo in Hdo'. simplify_eq. congruence. }
    assert (Hseen : seen (markSeen id s) id = true) by apply seen_markSeen.
    destruct e as [e0|]; repeat wp_step; events;
      rewrite ?Hlc, ?Hli, ?Hcalls, ?Hinj; events.
    all: split; [reflexivity|]; split; [exact Hseen|]; split;
      [|intros Hno; by destruct (Hno resp raw Hdo)].
    all: intros resp' raw' Hdo' Hcarries'; rewrite (Hraw resp' raw') by done.
    all: split; [reflexivity|]; split; [done|].
    all: intros box Hbox Hclick Htype Hpress;
      specialize (Hworks box Hbox Hclick Htype Hpress); try discriminate.
    split; [done|]. by apply Hfull.
  - destruct Hr as [-> Hno]. repeat wp_step. events.
    rewrite ?Hlc, ?Hli. events.
    split; [reflexivity|]. split; [apply seen_markSeen|]. split; [|done].
    intros resp raw Hdo Hcarries. by destruct (Hno resp Hdo) as [_ []%(.$ raw)].
  - destruct Hr as [-> (resp & Hdo & _ & Hno)]. events.
    rewrite ?Hlc, ?Hli. events.
    split; [reflexivity|]. split; [apply seen_markSeen|]. split; [|done].
    intros resp' raw Hdo' Hcarries. rewrite Hdo in Hdo'. simplify_eq.
    by destruct (Hno raw).
Qed.

End WatchMore.

(** * Further properties of the input box, the cleaning and the loop *)

(** X9. [typeInChat] leaves the service as it is and acts on the input box
    in order: a click, then the response, then [Enter], each only when the
    one before succeeded.  It returns nil exactly when all three were done
    and [Enter] succeeded; without an input box nothing is done. *)
Theorem typeInChat_acts_in_order (response : gostring)
  (inputBox : result (option TextBox)) (s : Service) :
  match typeInChat response inputBox s with
  | (r, s', events) =>
      s' = s /\
      events `prefix_of` [Click; TypeText response; Press "Enter"] /\
      (exists err,
          r = Val err /\
          (err = None <->
           events = [Click; TypeText response; Press "Enter"] /\
           exists box,
             inputBox = Ok (Some box) /\ boxPress box = None)) /\
      (forall box,
          inputBox = Ok (Some box) ->
          (In (TypeText response) events <-> boxClick box = None) /\
          (In (Press "Enter") events
           <-> boxClick box = None /\ boxType box = None)) /\
      ((forall box, inputBox <> Ok (Some box)) -> events = [])
  end.
Proof.
  apply (wp_match (typeInChat response inputBox)
           (fun r s' events =>
              s' = s /\
              events `prefix_of` [Click; TypeText response; Press "Enter"] /\
              (exists err,
                  r = Val err /\
                  (err = None <->
                   events = [Click; TypeText response; Press "Enter"] /\
                   exists box,
                     inputBox = Ok (Some box) /\ boxPress box = None)) /\
              (forall box,
                  inputBox = Ok (Some box) ->
                  (In (TypeText response) events <-> boxClick box = None) /\
                  (In (Press "Enter") events
                   <-> boxClick box = None /\ boxType box = None)) /\
              ((forall box, inputBox <> Ok (Some box)) -> events = []))).
  unfold typeInChat. repeat wp_step.
  all: split; [reflexivity|]; split;
    [cbn; first [apply prefix_nil | by eexists]|].
  all: split; [eexists; split; [reflexivity|]; split;
                 [try discriminate|intros [Hev (box & Hbox & Hpress)];
                                   simplify_eq; try discriminate; congruence]
              |].
  all: try (intros _; split; [reflexivity|]; by eexists).
  all: split; [|try (intros Hno; by destruct (Hno t)); try done].
  all: intros box [= <-]; cbn; split; split; try tauto; try congruence.
  all: try (intros [H|[H|[H|[]]]]; try split; congruence).
  all: try (intros [H|[H|[]]]; try split; congruence).
  all: try (intros [H|[]]; try split; congruence).
  all: try (intros [H1 H2]; congruence).
Qed.

(** ** Cleaning the content *)

Lemma replaceFrom_sublist (old s : gostring) (skip : nat) :
  sublist (strings.replaceFrom old [] skip s) s.
Proof.
  revert skip. induction s as [|r s IH]; intros skip; [done|].
  cbn [strings.replaceFrom]. destruct skip as [|k].
  - destruct (strings.HasPrefix (r :: s) old).
    + cbn [app]. apply sublist_cons, IH.
    + apply sublist_skip, IH.
  - apply sublist_cons, IH.
Qed.

Lemma ReplaceAll_sublist (s old : gostring) :
  sublist (strings.ReplaceAll s old []) s.
Proof.
  unfold strings.ReplaceAll. case_decide; [done|].
  destruct old; [done|]. apply replaceFrom_sublist.
Qed.

Lemma stripMentions_sublist (content : gostring)
  (mentions : list MentionElement) :
  sublist (stripMentions content mentions) content.
Proof.
  revert content. induction mentions as [|m mentions IH]; intros content;
    [done|].
  cbn [stripMentions]. etrans; [apply IH|]. apply ReplaceAll_sublist.
Qed.

Lemma stripMentions_cons (content : gostring) (m : MentionElement)
  (mentions : list MentionElement) :
  stripMentions content (m :: mentions)
  = stripMentions
      (strings.ReplaceAll content
         (match mentionInnerTextAgain m with
          | Ok text => text
          | Err _ => []
          end) []) mentions.
Proof. reflexivity. Qed.

(** X12. Cutting the mentions out of the content only deletes runes: the
    result is a subsequence of the content, never longer; mentions whose
    text cannot be read or is empty delete nothing. *)
Theorem stripMentions_only_deletes (content : gostring)
  (mentions : list MentionElement) :
  sublist (stripMentions content mentions) content /\
  (length (stripMentions content mentions) <= length content)%nat /\
  (Forall (fun mention =>
             match mentionInnerTextAgain mention with
             | Ok text => text = []
             | Err _ => True
             end) mentions ->
   stripMentions content mentions = content).
Proof.
  split; [apply stripMentions_sublist|].
  split; [apply sublist_length, stripMentions_sublist|].
  induction 1 as [|m mentions Hm _ IH]; [done|].
  rewrite stripMentions_cons.
  replace (match mentionInnerTextAgain m with
           | Ok text => text
           | Err _ => []
           end) with ([] : gostring)
    by (destruct (mentionInnerTextAgain m); congruence).
  exact IH.
Qed.

Section Loop.

Variable foldOrbit : rune -> rune -> bool.

Lemma forEach_not_continue {A} (l : list A) (body : A -> M unit)
  (s : Service) :
  fst (fst (forEach l body s)) <> Continue.
Proof.
  revert s. induction l as [|a l IH]; intros s; [done|].
  cbn [forEach]. destruct (body a s) as [[[[]| |msg] s1] ev1]; [| |done].
  all: specialize (IH s1); by destruct (forEach l body s1) as [[r s2] ev2].
Qed.

(** X10. The polls compose: while the loop has not returned, the polls of
    [ticks1 ++ ticks2] are those of [ticks1] followed by those of [ticks2]
    from the state reached.  Once the loop has returned (the context is
    done or the enumeration failed) or has panicked, later ticks change
    nothing; a [continue] of the loop body never leaves the loop. *)
Theorem pollLoop_app (ticks1 ticks2 : list Tick) (s : Service) :
  match pollLoop foldOrbit ticks1 s with
  | (Val Polling, s1, ev1) =>
      pollLoop foldOrbit (ticks1 ++ ticks2) s
      = match pollLoop foldOrbit ticks2 s1 with
        | (r, s2, ev2) => (r, s2, ev1 ++ ev2)
        end
  | (r, s1, ev1) =>
      r <> Continue /\
      pollLoop foldOrbit (ticks1 ++ ticks2) s = (r, s1, ev1)
  end.
Proof.
  revert s. induction ticks1 as [|[err|[entries|e]] ticks1 IH]; intros s.
  - cbn. by destruct (pollLoop foldOrbit ticks2 s) as [[r s2] ev2].
  - by cbn.
  - cbn [pollLoop app]. unfold bind.
    pose proof (forEach_not_continue entries (readMessage foldOrbit) s) as Hc.
    destruct (forEach entries (readMessage foldOrbit) s)
      as [[[[]| |msg] s1] ev1]; [|done|done].
    specialize (IH s1).
    destruct (pollLoop foldOrbit ticks1 s1) as [[[[err|]| |msg] s2] ev2].
    + destruct IH as [_ ->]. by split.
    + rewrite IH.
      destruct (pollLoop foldOrbit ticks2 s2) as [[r s3] ev3].
      by rewrite app_assoc.
    + by destruct IH.
    + destruct IH as [_ ->]. by split.
  - by cbn.
Qed.

(** ** The seen set after the initialization pass *)

Lemma initializeSeenMessages_seen (messages : list ElementHandle)
  (s : Service) :
  wp (initializeSeenMessages (Ok messages))
    (fun _ s' _ =>
       forall id,
         seen s' id = true
         <-> seen s id = true \/
             (id <> [] /\ In (Ok id) (map dataListItemId messages))) s.
Proof.
  unfold initializeSeenMessages. apply wp_bind.
  cut (wp (forEach messages
             (fun message =>
                let* idAttr :=
                  orLogContinue (dataListItemId message)
                    "Failed to get message ID during initialization" in
                if decide (idAttr = []) then continue
                else modify (markSeen idAttr)))
         (fun _ s' _ =>
            forall id,
              seen s' id = true
              <-> seen s id = true \/
                  (id <> [] /\ In (Ok id) (map dataListItemId messages))) s).
  { intros H. eapply wp_mono; [exact H|]. cbn beta.
    intros r s' ev Hs'. unfold wpBind. by destruct r. }
  revert s. induction messages as [|m messages IH]; intros s.
  - apply wp_ret. intros id. cbn. tauto.
  - unfold wp. cbn [forEach]. unfold bind, orLogContinue.
    destruct (dataListItemId m) as [idAttr|e] eqn:Hid; cbn.
    + destruct (decide (idAttr = [])) as [->|Hne]; cbn.
      * specialize (IH s). unfold wp in IH.
        destruct (forEach messages _ s) as [[r s'] ev]. cbn in *.
        intros id. rewrite IH. split; [tauto|].
        intros [?|[? [?|?]]]; [tauto|congruence|tauto].
      * specialize (IH (markSeen idAttr s)). unfold wp in IH.
        destruct (forEach messages _ (markSeen idAttr s)) as [[r s'] ev].
        cbn in *. intros id. rewrite IH.
        destruct (decide (idAttr = id)) as [->|Hne'].
        -- rewrite seen_markSeen. split; [|tauto].
           intros _. right. split; [done|]. by left.
        -- unfold seen, markSeen. cbn.
           rewrite lookup_insert_ne by done. split; [tauto|].
           intros [?|[? [?|?]]]; [tauto|congruence|tauto].
    + specialize (IH s). unfold wp in IH.
      destruct (forEach messages _ s) as [[r s'] ev]. cbn in *.
      intros id. rewrite IH. split; [tauto|].
      intros [?|[? [?|?]]]; [tauto|congruence|tauto].
Qed.

(** X11. When polling starts, the seen set holds exactly the ids that the
    first enumeration could read and that are not empty: what an earlier
    run of [ReadMessages] had seen is forgotten. *)
Theorem polling_starts_with_exactly_the_ids_of_the_page
  (messages : list ElementHandle) (s : Service) :
  match ReadMessages foldOrbit (Ok messages) [] s with
  | (r, s', events) =>
      forall id,
        seen s' id = true
        <-> id <> [] /\ In (Ok id) (map dataListItemId messages)
  end.
Proof.
  apply (wp_match (ReadMessages foldOrbit (Ok messages) [])
           (fun _ s' _ =>
              forall id,
                seen s' id = true
                <-> id <> [] /\ In (Ok id) (map dataListItemId messages))).
  unfold ReadMessages. repeat wp_step. apply wp_bind.
  eapply wp_mono; [apply initializeSeenMessages_seen|]. cbn beta.
  intros r s' ev Hs'. unfold wpBind.
  assert (Hiff : forall id,
             seen s' id = true
             <-> id <> [] /\ In (Ok id) (map dataListItemId messages)).
  { intros id. rewrite Hs'. unfold seen, resetSeen. cbn.
    rewrite lookup_empty. cbn. split; [|tauto]. by intros [?|?]. }
  destruct r as [[e|]| |msg]; repeat wp_step; exact Hiff.
Qed.

End Loop.

(** * Properties of [config.Validate] *)

Section ConfigProperties.

Import config.

Lemma joinIf_None (cond : bool) (err : error) (errs : option error) :
  joinIf cond err errs = None <-> cond = false /\ errs = None.
Proof.
  unfold joinIf, Join. destruct cond, errs; cbn; split; try done.
  all: by intros [].
Qed.

Lemma joinIf_Is (cond : bool) (err : error) (errs : option error)
  (target : error) :
  from_option (fun e => Is e target) false (joinIf cond err errs)
  = from_option (fun e => Is e target) false errs || (cond && Is err target).
Proof.
  unfold joinIf, Join.
  destruct cond, errs; cbn; rewrite ?orb_false_r; reflexivity.
Qed.

Variable urlParse : gostring -> option string.

Lemma SiteConfig_Validate_None (sc : SiteConfig) :
  SiteConfig_Validate urlParse sc = None
  <-> allSet sc = true /\ urlParse (SiteURL sc) = None.
Proof.
  unfold SiteConfig_Validate, allSet. cbv zeta.
  rewrite !joinIf_None.
  destruct (urlParse (SiteURL sc)) as [err|].
  - split; [|by intros [_ ?]]. intros (_ & _ & _ & _ & _ & _ & H).
    unfold Join in H. by destruct (joinIf _ _ _).
  - rewrite joinIf_None, !andb_true_iff, !negb_true_iff. tauto.
Qed.

Lemma Join_Is (err : error) (errs : option error) (target : error) :
  from_option (fun e => Is e target) false (Join [errs; Some err])
  = from_option (fun e => Is e target) false errs || Is err target.
Proof. destruct errs; cbn; by rewrite ?orb_false_r. Qed.

Lemma Join_Some (err : error) (errs : option error) :
  Join [errs; Some err] <> None.
Proof. by destruct errs. Qed.

Lemma SiteConfig_Validate_Is (sc : SiteConfig) (target : error) :
  from_option (fun e => Is e target) false (SiteConfig_Validate urlParse sc)
  = negb (allSet sc) && Is ErrMissing target.
Proof.
  unfold SiteConfig_Validate, allSet. cbv zeta.
  rewrite !joinIf_Is.
  destruct (urlParse (SiteURL sc)) as [msg|].
  - rewrite Join_Is, joinIf_Is. cbn.
    destruct (isEmpty (SiteURL sc)), (isEmpty (SearchInputSelector sc)),
      (isEmpty (TagsSelector sc)), (isEmpty (RequestsSelector sc)),
      (isEmpty (InitialRequestsSelector sc)), (isEmpty (BrandsSelector sc)),
      (isEmpty (TipsParentElementSelector sc)), target; reflexivity.
  - rewrite joinIf_Is. cbn.
    destruct (isEmpty (SiteURL sc)), (isEmpty (SearchInputSelector sc)),
      (isEmpty (TagsSelector sc)), (isEmpty (RequestsSelector sc)),
      (isEmpty (InitialRequestsSelector sc)), (isEmpty (BrandsSelector sc)),
      (isEmpty (TipsParentElementSelector sc)), target; reflexivity.
Qed.

Lemma validateSiteConfigs_None (i : Z) (scs : list SiteConfig)
  (errs : option error) :
  validateSiteConfigs urlParse i scs errs = None
  <-> errs = None /\
      Forall (fun sc => SiteConfig_Validate urlParse sc = None) scs.
Proof.
  revert i errs. induction scs as [|sc scs IH]; intros i errs.
  - cbn. split; [by split|by intros []].
  - cbn [validateSiteConfigs]. rewrite IH, Forall_cons.
    destruct (SiteConfig_Validate urlParse sc) as [err|].
    + split; [intros [H _]; by destruct (Join_Some _ _ H)|by intros [_ []]].
    + tauto.
Qed.

Lemma validateSiteConfigs_Is (i : Z) (scs : list SiteConfig)
  (errs : option error) (target : error) :
  from_option (fun e => Is e target) false
    (validateSiteConfigs urlParse i scs errs)
  = from_option (fun e => Is e target) false errs
    || (existsb (fun sc => negb (allSet sc)) scs && Is ErrMissing target).
Proof.
  revert i errs. induction scs as [|sc scs IH]; intros i errs.
  - cbn. by rewrite orb_false_r.
  - cbn [validateSiteConfigs existsb]. rewrite IH.
    pose proof (SiteConfig_Validate_Is sc target) as Hsc.
    destruct (SiteConfig_Validate urlParse sc) as [err|].
    + rewrite Join_Is. cbn [Is]. cbn [from_option] in Hsc. rewrite Hsc.
      rewrite andb_orb_distrib_l, orb_assoc. reflexivity.
    + cbn [from_option] in Hsc. rewrite andb_orb_distrib_l, <- Hsc.
      reflexivity.
Qed.

(** X13. [Validate] accepts a configuration exactly when it has a site,
    every site has its URL and its six selectors set and a URL that
    [url.Parse] takes, no duration and no number of retries is negative,
    and the save path is set.  Zero passes for each number, although the
    error of the check reads [must be positive]. *)
Theorem Validate_accepts_exactly (c : Config) :
  Config_Validate urlParse c = None
  <-> SiteConfigs c <> [] /\
      Forall (fun sc => allSet sc = true /\ urlParse (SiteURL sc) = None)
        (SiteConfigs c) /\
      (0 <= PauseBetweenQueries c /\ 0 <= PauseAfterError c /\
       0 <= ExpectedResponseTime c /\ 0 <= TypingSpeedOneCharacter c /\
       0 <= SuggestionUpdateTimeout c /\ 0 <= RetryDelayOpenSite c /\
       0 <= TipsParentElementTimeout c /\ 0 <= RetriesOpenSite c)%Z /\
      SavePath c <> [].
Proof.
  unfold Config_Validate. cbv zeta.
  rewrite !joinIf_None, validateSiteConfigs_None, joinIf_None.
  rewrite !Z.ltb_ge. unfold isEmpty. rewrite bool_decide_eq_false.
  rewrite Nat.eqb_neq.
  assert (Hsites : Forall (fun sc => SiteConfig_Validate urlParse sc = None)
                     (SiteConfigs c)
                   <-> Forall (fun sc => allSet sc = true /\
                                         urlParse (SiteURL sc) = None)
                         (SiteConfigs c)).
  { split; intros H; (eapply Forall_impl; [exact H|]); intros sc;
      by rewrite SiteConfig_Validate_None. }
  rewrite Hsites.
  assert (Hlen : length (SiteConfigs c) <> 0%nat <-> SiteConfigs c <> []).
  { by destruct (SiteConfigs c). }
  rewrite Hlen. tauto.
Qed.

(** X14. The error of [Validate] names the kind of fault through every
    [errors.Join] and [fmt.Errorf]: it holds [ErrMustBePositive] exactly
    when a duration or the number of retries is negative, and [ErrMissing]
    exactly when there is no site, a site lacks its URL or a selector, or
    the save path is empty.  A URL that [url.Parse] refuses adds
    neither. *)
Theorem Validate_names_the_kind_of_fault (c : Config) :
  from_option (fun err => Is err ErrMustBePositive) false
    (Config_Validate urlParse c)
  = someNegative c /\
  from_option (fun err => Is err ErrMissing) false
    (Config_Validate urlParse c)
  = Nat.eqb (length (SiteConfigs c)) 0
    || existsb (fun sc => negb (allSet sc)) (SiteConfigs c)
    || isEmpty (SavePath c).
Proof.
  unfold Config_Validate, someNegative. cbv zeta.
  rewrite !joinIf_Is, !validateSiteConfigs_Is, !joinIf_Is. cbn [Is from_option].
  rewrite !andb_true_r, !andb_false_r, !orb_false_r, ?orb_false_l.
  split; reflexivity.
Qed.

(** The sample configuration, all of whose numbers are zero, passes. *)
Example Validate_sample :
  Config_Validate (fun _ => None) sample = None.
Proof. reflexivity. Qed.

End ConfigProperties.

(** * Properties of [Run] and [checkSite] *)

Section RunProperties.

Variable foldOrbit : rune -> rune -> bool.


Lemma waitForStart_events (scanned : list gostring) :
  Forall (fun event =>
            event = Scanln \/ event = Stdout "Waiting for 'start' input...")
    (snd (waitForStart scanned)).
Proof.
  induction scanned as [|input rest IH]; cbn [waitForStart]; [constructor|].
  destruct (decide (input = str "start")).
  { constructor; [by left|constructor]. }
  destruct (waitForStart rest) as [started events]. cbn in *.
  constructor; [by left|]. constructor; [by right|done].
Qed.

Lemma checkSite_never_nil (site : Site) (s : Service) :
  fst (fst (checkSite foldOrbit site s)) <> Returns None.
Proof.
  unfold checkSite, deferred, createPage, openSite. cbv zeta.
  destruct (Launch site) as [browser|e]; [|done].
  destruct (NewPage browser) as [page|e], (Close browser) as [e'|]; try done.
  all: destruct (Goto page) as [e''|]; try done.
  all: destruct (waitForStart (scanned site)) as [[] ev3]; try done.
  all: destruct (ReadMessages foldOrbit (initial page) (ticks page) s)
         as [[[[err|]| |msg] s'] events]; done.
Qed.

(** X15. [Run] checks the first site only: [checkSite] never returns nil,
    so the sites after the first are never visited, and [Run] never
    returns nil when there is a site. *)
Theorem Run_checks_only_the_first_site (pwRun : result Playwright)
  (site : Site) (rest : list Site) (s : Service) :
  Run foldOrbit pwRun (site :: rest) s = Run foldOrbit pwRun [site] s /\
  fst (fst (Run foldOrbit pwRun (site :: rest) s)) <> Returns None.
Proof.
  pose proof (checkSite_never_nil site s) as Hnil.
  unfold Run, deferred. cbn [checkSites].
  destruct (checkSite foldOrbit site s) as [[[[err|]| |] s'] events];
    [|done|..].
  all: destruct pwRun as [[[e|]]|e]; by cbn.
Qed.

Lemma noCleanUp_Forall (events : list RunEvent) :
  Forall (fun event => event <> BrowserClose /\ event <> PlaywrightStop)
    events ->
  noCleanUp events.
Proof.
  intros H. split; intros Hin;
    by destruct (proj1 (List.Forall_forall _ _) H _ Hin).
Qed.

Lemma waitForStart_noCleanUp (scanned : list gostring) :
  Forall (fun event => event <> BrowserClose /\ event <> PlaywrightStop)
    (snd (waitForStart scanned)).
Proof.
  eapply Forall_impl; [apply waitForStart_events|].
  by intros event [->| ->].
Qed.

Lemma checkSite_events (site : Site) (s : Service) :
  match checkSite foldOrbit site s with
  | (Blocked, _, events) =>
      (exists browser, Launch site = Ok browser) /\
      Forall (fun event => event <> BrowserClose /\ event <> PlaywrightStop)
        events
  | (_, _, events) =>
      exists before,
        events
        = before ++ match Launch site with
                    | Ok _ => [BrowserClose]
                    | Err _ => []
                    end /\
        Forall (fun event => event <> BrowserClose /\ event <> PlaywrightStop)
          before
  end.
Proof.
  pose proof (waitForStart_noCleanUp (scanned site)) as Hwait.
  unfold checkSite, deferred, createPage, openSite. cbv zeta.
  destruct (Launch site) as [browser|e].
  2: { eexists. split; [by rewrite app_nil_r|]. by repeat constructor. }
  destruct (NewPage browser) as [page|e].
  2: { destruct (Close browser); eexists; (split; [reflexivity|]);
         by repeat constructor. }
  destruct (Goto page) as [e|].
  { destruct (Close browser); eexists; (split; [reflexivity|]);
      by repeat constructor. }
  destruct (waitForStart (scanned site)) as [started ev3]. cbn [snd] in Hwait.
  assert (Hbefore :
            Forall (fun event =>
                      event <> BrowserClose /\ event <> PlaywrightStop)
              ([LogInfo "starting check site"
                  (config.SiteURL (siteConfig site)); ChromiumLaunch] ++
               [BrowserNewPage] ++
               [PageGoto (config.SiteURL (siteConfig site))] ++
               [Stdout "Please log in to your Discord account in the opened browser.";
                Stdout "Once logged in and navigated to the desired channel, enter 'start' to continue..."] ++
               ev3)).
  { cbn [app]. by repeat constructor. }
  destruct started.
  2: { split; [by eexists|done]. }
  destruct (ReadMessages foldOrbit (initial page) (ticks page) s)
    as [[[[err|]| |msg] s'] events].
  all: assert (Hall :
            Forall (fun event =>
                      event <> BrowserClose /\ event <> PlaywrightStop)
              (([LogInfo "starting check site"
                   (config.SiteURL (siteConfig site)); ChromiumLaunch] ++
                [BrowserNewPage] ++
                [PageGoto (config.SiteURL (siteConfig site))] ++
                [Stdout "Please log in to your Discord account in the opened browser.";
                 Stdout "Once logged in and navigated to the desired channel, enter 'start' to continue..."] ++
                ev3) ++ [Reading events]))
    by (apply Forall_app; split; [done|by repeat constructor]).
  all: try (split; [by eexists|done]).
  all: destruct (Close browser); eexists; (split; [reflexivity|done]).
Qed.

(** X16. Unless it is still blocked, [Run] ends with the clean-up: the
    browser, when it was launched, is closed, and then Playwright is
    stopped, each once and after everything else, also when the watch loop
    panics.  An error of [pw.Stop] is joined to the error of the site, not
    put in its place.  While [Run] is blocked the browser is open and
    nothing was cleaned up. *)
Theorem Run_cleans_up_unless_blocked (pw : Playwright) (site : Site)
  (rest : list Site) (s : Service) :
  match Run foldOrbit (Ok pw) (site :: rest) s with
  | (Blocked, _, events) =>
      (exists browser, Launch site = Ok browser) /\ noCleanUp events
  | (r, _, events) =>
      (exists before,
          events
          = before ++ match Launch site with
                      | Ok _ => [BrowserClose; PlaywrightStop]
                      | Err _ => [PlaywrightStop]
                      end /\
          noCleanUp before) /\
      forall e err,
        Stop pw = Some e -> r = Returns err ->
        exists checkErr,
          err = Some (joinRun
                        [checkErr;
                         wrapRun "error stopping browser: %w" []
                           (libError e)])
  end.
Proof.
  pose proof (checkSite_events site s) as Hev.
  pose proof (checkSite_never_nil site s) as Hnil.
  unfold Run, deferred. cbn [checkSites].
  destruct (checkSite foldOrbit site s) as [[[[err|]| |] s'] events];
    [| done | |].
  - destruct Hev as (before & -> & Hbefore). split.
    + exists (PlaywrightRun :: before). split.
      * destruct (Launch site); cbn; by rewrite <- ?app_assoc.
      * apply noCleanUp_Forall. by constructor.
    + intros e err' -> [= <-]. by eexists.
  - destruct Hev as (before & -> & Hbefore). split.
    + exists (PlaywrightRun :: before). split.
      * destruct (Launch site); cbn; by rewrite <- ?app_assoc.
      * apply noCleanUp_Forall. by constructor.
    + intros e err' _ [=].
  - destruct Hev as [Hlaunch Hevents]. split; [done|].
    apply noCleanUp_Forall. by constructor.
Qed.

Lemma deferred_Reading (cleanup : RunEvent) (tmpErr : option error)
  (format : string) (body : Outcome * Service * list RunEvent) :
  (forall ev, cleanup <> Reading ev) ->
  snd (fst (deferred cleanup tmpErr format body)) = snd (fst body) /\
  forall ev,
    In (Reading ev) (snd (deferred cleanup tmpErr format body))
    <-> In (Reading ev) (snd body).
Proof.
  intros Hc. destruct body as [[[err| |] s] events]; cbn; split; try done.
  all: intros ev; rewrite in_app_iff; cbn; split; [|tauto].
  all: intros [?|[?|[]]]; [done|]; by destruct (Hc ev).
Qed.


End RunProperties.

(** * The program from [New] to [Run] *)

Section Program.

Variable foldOrbit : rune -> rune -> bool.

Lemma checkSite_well_formed (site : Site) (s : Service) :
  exchanges (conversationHistory s) ->
  match checkSite foldOrbit site s with
  | (r, s', events) =>
      exchanges (conversationHistory s') /\
      forall ev,
        In (Reading ev) events ->
        Forall wellFormedRequest (completionCalls ev)
  end.
Proof.
  intros Hh.
  pose proof (waitForStart_events (scanned site)) as Hwait.
  unfold checkSite. cbv zeta.
  destruct (Launch site) as [browser|e].
  2: { split; [done|]. intros ev [|[|[]]]; done. }
  match goal with
  | |- match deferred ?c ?t ?f ?body with _ => _ end =>
      pose proof (deferred_Reading c t f body ltac:(done)) as [Hs Hin];
      destruct (deferred c t f body) as [[r s'] events];
      cbn [fst snd] in Hs, Hin; subst s'
  end.
  setoid_rewrite Hin. clear Hin.
  unfold createPage, openSite.
  destruct (NewPage browser) as [page|e].
  2: { cbn. split; [done|]. intros ev [|[|[|[]]]]; done. }
  destruct (Goto page) as [e|].
  { cbn. split; [done|]. intros ev [|[|[|[|[]]]]]; done. }
  destruct (waitForStart (scanned site)) as [started ev3].
  cbn [snd] in Hwait.
  assert (Hno : forall ev,
             ~ In (Reading ev)
                 ([LogInfo "starting check site"
                     (config.SiteURL (siteConfig site)); ChromiumLaunch] ++
                  [BrowserNewPage] ++
                  [PageGoto (config.SiteURL (siteConfig site))] ++
                  [Stdout "Please log in to your Discord account in the opened browser.";
                   Stdout "Once logged in and navigated to the desired channel, enter 'start' to continue..."] ++
                  ev3)).
  { intros ev. cbn. intros [|[|[|[|[|[|Hin]]]]]]; try done.
    by destruct (proj1 (List.Forall_forall _ _) Hwait _ Hin). }
  destruct started.
  2: { cbn [fst snd]. split; [done|]. intros ev Hin. by destruct (Hno ev). }
  pose proof (wp_match _ _ _
                (ReadMessages_well_formed foldOrbit (initial page)
                   (ticks page) s Hh)) as Hread.
  destruct (ReadMessages foldOrbit (initial page) (ticks page) s)
    as [[r0 s0] events0].
  destruct Hread as [Hh' Hcalls].
  destruct r0 as [[err|]| |msg]; cbn [fst snd].
  all: split; [done|]; intros ev [Hin|[[= <-]|[]]]%in_app_iff; [|done].
  all: by destruct (Hno ev).
Qed.

Lemma checkSites_well_formed (sites : list Site) (s : Service) :
  exchanges (conversationHistory s) ->
  match checkSites foldOrbit sites s with
  | (r, s', events) =>
      exchanges (conversationHistory s') /\
      forall ev,
        In (Reading ev) events ->
        Forall wellFormedRequest (completionCalls ev)
  end.
Proof.
  revert s. induction sites as [|site sites IH]; intros s Hh.
  - by split.
  - cbn [checkSites]. pose proof (checkSite_well_formed site s Hh) as Hsite.
    destruct (checkSite foldOrbit site s) as [[[[err|]| |] s'] events];
      try done.
    destruct Hsite as [Hh' Hev]. specialize (IH s' Hh').
    destruct (checkSites foldOrbit sites s') as [[r s''] events'].
    destruct IH as [Hh'' Hev']. split; [done|].
    intros ev [?|?]%in_app_iff; auto.
Qed.

(** X18. From [New] to [Run]: a service that [New] returns has a key and a
    bot name that are not empty, and whatever the environment, the browser,
    the pages and the endpoint answer while [Run] runs from it, the history
    stays made of at most five whole exchanges without comma and period,
    and every request of every run of [ReadMessages] is the system prompt,
    such a history and one user turn: between 2 and 12 messages. *)
Theorem program_keeps_history_and_requests_well_formed
  (key name : gostring) (install mkdir : option error)
  (pwRun : result Playwright) (sites : list Site) (s : Service) :
  internal.New key name install mkdir = Ok s ->
  apiKey s <> [] /\ botUsername s <> [] /\
  match Run foldOrbit pwRun sites s with
  | (r, s', events) =>
      exchanges (conversationHistory s') /\
      forall ev,
        In (Reading ev) events ->
        Forall wellFormedRequest (completionCalls ev) /\
        Forall (fun messages => (2 <= length messages <= 12)%nat)
          (completionCalls ev)
  end.
Proof.
  unfold internal.New. intros Hnew.
  destruct (decide (key = [])) as [|Hkey]; [done|].
  destruct (decide (name = [])) as [|Hname]; [done|].
  destruct install; [done|]. destruct mkdir; [done|].
  injection Hnew as <-. split; [done|]. split; [done|].
  assert (Hh : exchanges (conversationHistory (New key name))).
  { exists []. split; [cbn; lia|]. by split. }
  unfold Run.
  destruct pwRun as [pw|e].
  2: { split; [done|]. intros ev [|[]]; done. }
  pose proof (checkSites_well_formed sites _ Hh) as Hsites.
  destruct (checkSites foldOrbit sites (New key name)) as [[r s'] events].
  destruct Hsites as [Hh' Hev].
  match goal with
  | |- match deferred ?c ?t ?f ?body with _ => _ end =>
      pose proof (deferred_Reading c t f body ltac:(done)) as [Hs Hin];
      destruct (deferred c t f body) as [[r' s''] events'];
      cbn [fst snd] in Hs, Hin; subst s''
  end.
  split; [done|]. intros ev Hin'. apply Hin in Hin' as [|Hin']; [done|].
  split; [by apply Hev|].
  eapply Forall_impl; [by apply Hev|]. apply wellFormedRequest_length.
Qed.

End Program.

(** * Properties of the command *)

Section MainProperties.

Variable foldOrbit : rune -> rune -> bool.



End MainProperties.

(** ** The further properties at sample inputs *)

(** A message of [ann] that mentions [carl], not the bot. *)
Lemma unaddressed_message_is_only_marked_witness :
  let s := New (str "key") (str "Bot") in
  let mentions := [mentionOf (str "@carl")] in
  let entry :=
    entryOf (messageOf (str "m5") (str "ann") [str "@carl"] (str "@carl hi"))
      (Ok (okResponse (str "Hi"))) in
  readMessage asciiFold entry s
  = (Val tt, markSeen (str "m5") s, mentionLog asciiFold s mentions) /\
  completionCalls (mentionLog asciiFold s mentions) = [] /\
  injections (mentionLog asciiFold s mentions) = [].
Proof.
  cbv zeta.
  apply (unaddressed_message_is_only_marked asciiFold
           (entryOf
              (messageOf (str "m5") (str "ann") [str "@carl"]
                 (str "@carl hi"))
              (Ok (okResponse (str "Hi"))))
           (New (str "key") (str "Bot")) (str "m5")
           (textOf (str "ann")) (str "ann") [mentionOf (str "@carl")]);
    try reflexivity.
  vm_compute. discriminate.
Defined.

(** The message of the mention scenario, answered with [Hi.]. *)
Lemma addressed_message_is_asked_once_witness :
  let s := New (str "key") (str "Bot") in
  let entry :=
    entryOf (mentionMessage (str "ann")) (Ok (okResponse (str "Hi."))) in
  let cleaned :=
    strings.TrimSpace
      (stripMentions (strings.TrimSpace (str "@Bot hello."))
         [mentionOf (str "Bot")]) in
  match readMessage asciiFold entry s with
  | (r, s', events) =>
      completionCalls events = [request s cleaned] /\
      seen s' (str "m1") = true /\
      (forall resp raw,
          completion entry = Ok resp -> carries resp raw ->
          conversationHistory s'
          = committed (conversationHistory s)
              (mkTurn (str "user") (userContent cleaned))
              (mkTurn (str "assistant") (shapeReply raw)) /\
          injections events
            `prefix_of` [Click; TypeText (shapeReply raw); Press "Enter"] /\
          forall box,
            textbox entry = Ok (Some box) -> boxClick box = None ->
            boxType box = None -> boxPress box = None ->
            r = Val tt /\
            injections events
            = [Click; TypeText (shapeReply raw); Press "Enter"]) /\
      ((forall resp raw, completion entry = Ok resp -> ~ carries resp raw) ->
       injections events = [] /\
       conversationHistory s' = conversationHistory s)
  end.
Proof.
  cbv zeta.
  apply (addressed_message_is_asked_once asciiFold
           (entryOf (mentionMessage (str "ann")) (Ok (okResponse (str "Hi."))))
           (New (str "key") (str "Bot")) (str "m1")
           (textOf (str "ann")) (str "ann") false [mentionOf (str "Bot")]
           (textOf (str "@Bot hello.")) (str "@Bot hello."));
    try reflexivity.
  vm_compute. discriminate.
Defined.

(** A run from the service of [New] with one poll of one message. *)
Lemma history_and_requests_stay_well_formed_witness :
  match
    ReadMessages asciiFold (Ok [])
      [Poll (Ok [entryOf (mentionMessage (str "ann"))
                   (Ok (okResponse (str "Hi.")))])]
      (New (str "key") (str "Bot"))
  with
  | (r, s', events) =>
      exchanges (conversationHistory s') /\
      Forall wellFormedRequest (completionCalls events) /\
      Forall (fun messages => (2 <= length messages <= 12)%nat)
        (completionCalls events)
  end.
Proof.
  apply (history_and_requests_stay_well_formed asciiFold (Ok [])
           [Poll (Ok [entryOf (mentionMessage (str "ann"))
                        (Ok (okResponse (str "Hi.")))])]
           (New (str "key") (str "Bot"))).
  exists []. split; [cbn; lia|]. split; [reflexivity|constructor].
Defined.

(** The message of the mention scenario is on the page at the start and in
    two later polls. *)
Lemma messages_present_at_start_are_never_answered_witness :
  let entry :=
    entryOf (mentionMessage (str "ann")) (Ok (okResponse (str "Hi."))) in
  match
    ReadMessages asciiFold (Ok [mentionMessage (str "ann")])
      [Poll (Ok [entry]); Poll (Ok [entry])] (New (str "key") (str "Bot"))
  with
  | (r, s', events) =>
      completionCalls events = [] /\
      injections events = [] /\
      conversationHistory s'
      = conversationHistory (New (str "key") (str "Bot"))
  end.
Proof.
  cbv zeta.
  apply (messages_present_at_start_are_never_answered asciiFold
           [mentionMessage (str "ann")]
           [Poll (Ok [entryOf (mentionMessage (str "ann"))
                        (Ok (okResponse (str "Hi.")))]);
            Poll (Ok [entryOf (mentionMessage (str "ann"))
                        (Ok (okResponse (str "Hi.")))])]
           (New (str "key") (str "Bot"))).
  repeat constructor.
Defined.

(** A run with one site: [go] and then [start] are entered, and one poll
    shows the message of the mention scenario. *)
Lemma program_keeps_history_and_requests_well_formed_witness :
  let s := New (str "key") (str "Bot") in
  let site :=
    {| siteConfig := config.sampleSite;
       Launch :=
         Ok {| NewPage :=
                 Ok {| Goto := None;
                       initial := Ok [];
                       ticks :=
                         [Poll (Ok [entryOf (mentionMessage (str "ann"))
                                      (Ok (okResponse (str "Hi.")))])] |};
               Close := None |};
       scanned := [str "go"; str "start"] |} in
  apiKey s <> [] /\ botUsername s <> [] /\
  match Run asciiFold (Ok {| Stop := None |}) [site] s with
  | (r, s', events) =>
      exchanges (conversationHistory s') /\
      forall ev,
        In (Reading ev) events ->
        Forall wellFormedRequest (completionCalls ev) /\
        Forall (fun messages => (2 <= length messages <= 12)%nat)
          (completionCalls ev)
  end.
Proof.
  cbv zeta.
  apply (program_keeps_history_and_requests_well_formed asciiFold
           (str "key") (str "Bot") None None).
  reflexivity.
Defined.
